(** * Attendance report pipeline of [bot.py]: a shallow embedding

    The file embeds [process_pdf], [generate_chart] and [handle_document]
    of [src/bot.py].  Of the transport (aiogram, FastAPI keep-alive) only
    what [handle_document] does with it is modelled: the name and the
    bytes of the document received, the calls of the Bot API, which may
    fail, the messages sent back, the files written, which may be
    impossible to create, and removed.

    Conventions.
    - A PDF is represented by what [pdfplumber] extracts from it: a list of
      pages, each page a list of tables, each table a list of rows, each row
      a list of cells, a cell being a [str] or [None].
    - Python exceptions are values of [pyexc]; a computation that may raise
      has type [result A].
    - The pandas operations used by the source are written out as list
      functions, with the behaviour of pandas 2.x on object-dtype frames
      (all extracted cells are Python objects).  Each definition names the
      source line it stands for.  What is taken from pandas:
      -- [pd.DataFrame] pads short rows with nulls;
      -- comparing labels with a scalar is [True] on a null side;
      -- [df[labels]] selects every column that carries a label;
      -- [pd.concat] aligns the frames on their column labels and refuses
         to realign a frame whose labels are not unique;
      -- [groupby] sorts the keys and drops the rows whose key is null;
      -- ['sum'] skips nulls and adds the other values with [+]; ['count']
         counts the values that are not null.
    - A number that pandas holds as the integer [n] or as the float [n.0]
      (which of the two depends on the nulls of the column) is the integer
      [n] in the statistics; how the frame holds its sums is [sums_held],
      and the report writes them accordingly ([3] or [3.0]).
    - Python floats are binary64 numbers: [Float64.float], with division,
      multiplication and addition rounded to nearest, ties to even; the
      operations are checked against [SpecFloat] of the standard library
      on a range of inputs. *)

From Stdlib Require Import String Ascii DecimalString.
From Stdlib Require Import ZArith Bool Lia QArith_base OrdersEx SpecFloat.
From Stdlib Require Import List Permutation Sorted.
Import ListNotations.

Local Open Scope string_scope.
Local Open Scope list_scope.
Local Open Scope Z_scope.

(** String concatenation, written so that it is not confused with list
    concatenation and integer comparisons keep their meaning around it. *)
Infix "+++" := String.append (right associativity, at level 60).

(* ================================================================= *)
(** ** Exceptions and fallible computations *)

Inductive pyexc : Type :=
| IndexError
| KeyError
| TypeError
| ZeroDivisionError
| OverflowError
| InvalidIndexError
| ValueError (msg : string).

Inductive result (A : Type) : Type :=
| Ok (a : A)
| Raise (e : pyexc).

Arguments Ok {A} a.
Arguments Raise {A} e.

Definition bind {A B} (r : result A) (k : A -> result B) : result B :=
  match r with
  | Ok a => k a
  | Raise e => Raise e
  end.

Notation "x <- c ;; k" := (bind c (fun x => k))
  (at level 61, c at next level, right associativity).

(** [mapM f l]: run [f] on the elements of [l] from left to right, stop at
    the first exception. *)
Fixpoint mapM {A B} (f : A -> result B) (l : list A) : result (list B) :=
  match l with
  | [] => Ok []
  | a :: l' => b <- f a ;; bs <- mapM f l' ;; Ok (b :: bs)
  end.

(* ================================================================= *)
(** ** Python floats (IEEE 754 binary64) *)

Module Float64.

(** A finite float [FFin m e] is the number [m * 2^e]. *)
Inductive float : Type :=
| FFin (m e : Z)
| FInf (neg : bool)
| FNaN.

Definition prec : Z := 53.
Definition emin : Z := -1074.
Definition emax : Z := 1024.

(** [rne num den]: the integer nearest to [num / den] ([0 <= num],
    [0 < den]), ties to the even one. *)
Definition rne (num den : Z) : Z :=
  let q := num / den in
  let r := num mod den in
  match 2 * r ?= den with
  | Lt => q
  | Gt => q + 1
  | Eq => if Z.even q then q else q + 1
  end.

(** [d * 2^k <= n], also for negative [k]. *)
Definition scaled_le (d k n : Z) : bool :=
  if 0 <=? k then d * 2 ^ k <=? n else d <=? n * 2 ^ (- k).

(** [floor (log2 (n / d))] for [0 < n], [0 < d]. *)
Definition ilog2_ratio (n d : Z) : Z :=
  let k := Z.log2 n - Z.log2 d in
  if scaled_le d k n then k else k - 1.

(** The binary64 number nearest to [n / d], for [0 < n] and [0 < d]. *)
Definition round_pos (n d : Z) : float :=
  let e := Z.max (ilog2_ratio n d - (prec - 1)) emin in
  let m := if 0 <=? e then rne n (d * 2 ^ e) else rne (n * 2 ^ (- e)) d in
  if emax <=? Z.log2 m + e then FInf false else FFin m e.

Definition fneg (x : float) : float :=
  match x with
  | FFin m e => FFin (- m) e
  | FInf s => FInf (negb s)
  | FNaN => FNaN
  end.

(** The binary64 number nearest to [n / d], for [0 < d]. *)
Definition round_ratio (n d : Z) : float :=
  match n with
  | Z0 => FFin 0 0
  | Zpos _ => round_pos n d
  | Zneg _ => fneg (round_pos (- n) d)
  end.

Definition is_inf (x : float) : bool :=
  match x with FInf _ => true | _ => false end.

(** Python [a / b] on two [int]s: the correctly rounded quotient. *)
Definition int_truediv (a b : Z) : result float :=
  if b =? 0 then Raise ZeroDivisionError
  else
    let x := if 0 <? b then round_ratio a b else round_ratio (- a) (- b) in
    if is_inf x then Raise OverflowError else Ok x.

(** Python [float(n)] for a small integer literal. *)
Definition of_int (n : Z) : float := round_ratio n 1.

(** Python [x * y] on two floats. *)
Definition fmul (x y : float) : float :=
  match x, y with
  | FNaN, _ | _, FNaN => FNaN
  | FInf s, FInf t => FInf (xorb s t)
  | FInf s, FFin m _ | FFin m _, FInf s =>
      if m =? 0 then FNaN else FInf (xorb s (m <? 0))
  | FFin m1 e1, FFin m2 e2 =>
      let e := e1 + e2 in
      if 0 <=? e then round_ratio (m1 * m2 * 2 ^ e) 1
      else round_ratio (m1 * m2) (2 ^ (- e))
  end.

(** Python [x + y] on two floats. *)
Definition fadd (x y : float) : float :=
  match x, y with
  | FNaN, _ | _, FNaN => FNaN
  | FInf s, FInf t => if Bool.eqb s t then FInf s else FNaN
  | FInf s, FFin _ _ | FFin _ _, FInf s => FInf s
  | FFin m1 e1, FFin m2 e2 =>
      let e := Z.min e1 e2 in
      let n := m1 * 2 ^ (e1 - e) + m2 * 2 ^ (e2 - e) in
      if 0 <=? e then round_ratio (n * 2 ^ e) 1
      else round_ratio n (2 ^ (- e))
  end.

(** The rational value of a finite float (0 for the others). *)
Definition F2Q (x : float) : Q :=
  match x with
  | FFin m e => if 0 <=? e then inject_Z (m * 2 ^ e)
                else Qmake m (Z.to_pos (2 ^ (- e)))
  | _ => inject_Z 0
  end.

Definition is_finite (x : float) : bool :=
  match x with FFin _ _ => true | _ => false end.

End Float64.

(* ================================================================= *)
(** ** Python string formatting *)

(** [str(n)] for an [int]. *)
Definition str_int (n : Z) : string := NilZero.string_of_int (Z.to_int n).

Definition two_digits (n : Z) : string :=
  if n <? 10 then "0" +++ str_int n else str_int n.

(** [f"{x:.2f}"]: the decimal with two digits after the point nearest to
    the exact value of [x], ties to even. *)
Definition format_2f (x : Float64.float) : string :=
  match x with
  | Float64.FNaN => "nan"
  | Float64.FInf false => "inf"
  | Float64.FInf true => "-inf"
  | Float64.FFin m e =>
      let a := Z.abs m in
      let n := if 0 <=? e then a * 100 * 2 ^ e
               else Float64.rne (a * 100) (2 ^ (- e)) in
      (if m <? 0 then "-" else "") +++
      str_int (n / 100) +++ "." +++ two_digits (n mod 100)
  end.

(** *** [str] of a float *)

(** The value of [FFin m e] as a fraction [n / d] with [0 < d]. *)
Definition fraction (m e : Z) : Z * Z :=
  if 0 <=? e then (m * 2 ^ e, 1) else (m, 2 ^ (- e)).

(** [10^k * (n / d)], also for negative [k]. *)
Definition scale10 (k : Z) (q : Z * Z) : Z * Z :=
  let (n, d) := q in
  if 0 <=? k then (n * 10 ^ k, d) else (n, d * 10 ^ (- k)).

(** Two floats are the same number. *)
Definition same_float (x y : Float64.float) : bool :=
  match x, y with
  | Float64.FFin m1 e1, Float64.FFin m2 e2 =>
      let (n1, d1) := fraction m1 e1 in
      let (n2, d2) := fraction m2 e2 in
      n1 * d2 =? n2 * d1
  | Float64.FInf s, Float64.FInf t => Bool.eqb s t
  | _, _ => false
  end.

(** The [k] with [10^(k-1) <= n / d < 10^k], for [0 < n / d < 1]. *)
Fixpoint decpt_below (fuel : nat) (k n d : Z) : Z :=
  match fuel with
  | O => k
  | S fuel' =>
      if d <=? n * 10 ^ (1 - k) then k else decpt_below fuel' (k - 1) n d
  end.

(** The [k] with [10^(k-1) <= n / d < 10^k], for [0 < n], [0 < d]. *)
Definition decpt (n d : Z) : Z :=
  if d <=? n then Z.of_nat (String.length (str_int (n / d)))
  else decpt_below 400 0 n d.

(** The shortest decimal [c * 10^(k - digits)], [c] of [digits] digits or
    more, that reads back as [x = n / d]; of the two neighbours of [x] the
    nearer one, the even one when [x] is half-way. *)
Fixpoint shortest (fuel : nat) (digits : Z) (x : Float64.float)
  (n d k : Z) : Z * Z :=
  match fuel with
  | O => (0, digits)
  | S fuel' =>
      let (sn, sd) := scale10 (digits - k) (n, d) in
      let lo := sn / sd in
      let hi := lo + 1 in
      let back c :=
        let (cn, cd) := scale10 (k - digits) (c, 1) in
        same_float (Float64.round_ratio cn cd) x in
      match back lo, back hi with
      | true, true =>
          match 2 * (sn mod sd) ?= sd with
          | Lt => (lo, digits)
          | Gt => (hi, digits)
          | Eq => (if Z.even lo then lo else hi, digits)
          end
      | true, false => (lo, digits)
      | false, true => (hi, digits)
      | false, false => shortest fuel' (digits + 1) x n d k
      end
  end.

Fixpoint zeros (n : nat) : string :=
  match n with O => "" | S n' => "0" +++ zeros n' end.

(** A string of digits without its trailing zeros. *)
Fixpoint strip_zeros (s : string) : string :=
  match s with
  | EmptyString => ""
  | String c s' =>
      match strip_zeros s' with
      | EmptyString => if Ascii.eqb c "0" then "" else String c ""
      | t => String c t
      end
  end.

(** The digits [ds] with the decimal point after the first [k] of them:
    fixed notation for [-4 < k <= 16], exponent notation otherwise. *)
Definition place_point (ds : string) (k : Z) : string :=
  let len := Z.of_nat (String.length ds) in
  if (-4 <? k) && (k <=? 16) then
    if k <=? 0 then "0." +++ zeros (Z.to_nat (- k)) +++ ds
    else if len <=? k then ds +++ zeros (Z.to_nat (k - len)) +++ ".0"
    else String.substring 0 (Z.to_nat k) ds +++ "." +++
         String.substring (Z.to_nat k) (Z.to_nat (len - k)) ds
  else
    String.substring 0 1 ds +++
    (if len <=? 1 then ""
     else "." +++ String.substring 1 (Z.to_nat (len - 1)) ds) +++
    "e" +++ (if k - 1 <? 0 then "-" else "+") +++
    two_digits (Z.abs (k - 1)).

(** [str(x)] for a float: the digits of the shortest decimal that reads
    back as [x], followed by [.0] when there is nothing after the point. *)
Definition str_float (x : Float64.float) : string :=
  match x with
  | Float64.FNaN => "nan"
  | Float64.FInf false => "inf"
  | Float64.FInf true => "-inf"
  | Float64.FFin m e =>
      if m =? 0 then "0.0"
      else
        let (n, d) := fraction (Z.abs m) e in
        let k := decpt n d in
        let (c, digits) :=
          shortest 17 1 (Float64.FFin (Z.abs m) e) n d k in
        let s := str_int c in
        let k' := k + (Z.of_nat (String.length s) - digits) in
        (if m <? 0 then "-" else "") +++ place_point (strip_zeros s) k'
  end.

(* ================================================================= *)
(** ** Tables and frames *)

(** A cell as [pdfplumber] returns it: a [str], or [None]. *)
Definition cell : Type := option string.

(** One extracted table: its rows, the first one being the header row. *)
Definition RawTable : Type := list (list cell).

Definition cell_eqb (a b : cell) : bool :=
  match a, b with
  | Some x, Some y => String.eqb x y
  | None, None => true
  | _, _ => false
  end.

(** An object-dtype [pandas.DataFrame] with a default row index: the column
    labels and the rows. *)
Record DataFrame : Type := mkDF {
  columns : list cell;
  data : list (list cell)
}.

(** [pd.DataFrame(table)] pads short rows with nulls to the widest row. *)
Definition width (t : RawTable) : nat :=
  fold_right (fun r w => Nat.max (length r) w) 0%nat t.

Definition pad (w : nat) (r : list cell) : list cell :=
  r ++ repeat None (w - length r).

Definition frame_rows (t : RawTable) : list (list cell) :=
  map (pad (width t)) t.

(** Lines 72-74: [df = pd.DataFrame(table)], [df.columns = df.iloc[0]],
    [df = df[1:].reset_index(drop=True)].  [df.iloc[0]] raises [IndexError]
    on a frame without rows. *)
Definition promote_header (t : RawTable) : result DataFrame :=
  match frame_rows t with
  | [] => Raise IndexError
  | h :: rest => Ok (mkDF h rest)
  end.

(** One entry of [df.columns != headers[0]]: the comparison of an object
    label with a scalar is [True] as soon as one side is null. *)
Definition label_ne (l h : cell) : bool :=
  match l, h with
  | Some a, Some b => negb (String.eqb a b)
  | _, _ => true
  end.

(** Positions of label [k] in [cols], counted from [i]. *)
Fixpoint locate_from (i : nat) (k : cell) (cols : list cell) : list nat :=
  match cols with
  | [] => []
  | c :: cols' =>
      if cell_eqb k c then i :: locate_from (S i) k cols'
      else locate_from (S i) k cols'
  end.

Definition locate (k : cell) (cols : list cell) : list nat :=
  locate_from 0 k cols.

(** [df[keys]] for a list of labels: every key selects all the columns that
    carry it (a label carried by several columns selects them all), and a
    key carried by no column raises [KeyError]. *)
Definition getitem_labels (keys : list cell) (df : DataFrame)
  : result DataFrame :=
  idx <- mapM (fun k => match locate k (columns df) with
                        | [] => Raise KeyError
                        | ps => Ok ps
                        end) keys ;;
  let ix := concat idx in
  Ok (mkDF (map (fun i => nth i (columns df) None) ix)
           (map (fun r => map (fun i => nth i r None) ix) (data df))).

(** The two variables of the extraction loop, lines 65-66. *)
Record loop_state : Type := mkLoop {
  headers : option (list cell);
  tables : list DataFrame
}.

Definition loop_init : loop_state := mkLoop None [].

(** Lines 72-81, the body of the loop for one extracted table. *)
Definition loop_body (st : loop_state) (table : RawTable)
  : result loop_state :=
  df <- promote_header table ;;
  match headers st with
  | None => Ok (mkLoop (Some (columns df)) (tables st ++ [df]))
  | Some hs =>
      match hs with
      | [] => Raise IndexError                            (* headers[0] *)
      | h0 :: _ =>
          df' <- getitem_labels
                   (filter (fun l => label_ne l h0) (columns df)) df ;;
          Ok (mkLoop (Some hs) (tables st ++ [df']))
      end
  end.

Fixpoint foldM {A B} (f : A -> B -> result A) (a : A) (l : list B)
  : result A :=
  match l with
  | [] => Ok a
  | b :: l' => a' <- f a b ;; foldM f a' l'
  end.

Fixpoint nodupb (l : list cell) : bool :=
  match l with
  | [] => true
  | c :: l' => negb (existsb (cell_eqb c) l') && nodupb l'
  end.

Definition labels_eqb (a b : list cell) : bool :=
  (length a =? length b)%nat &&
  forallb (fun p => cell_eqb (fst p) (snd p)) (combine a b).

(** The labels of several indexes, each once, in the order they are first
    met. *)
Definition union_labels (ls : list (list cell)) : list cell :=
  fold_left (fun acc l => if existsb (cell_eqb l) acc then acc
                          else acc ++ [l])
            (concat ls) [].

Fixpoint index_of (k : cell) (cols : list cell) : option nat :=
  match cols with
  | [] => None
  | c :: cols' =>
      if cell_eqb k c then Some 0%nat
      else option_map S (index_of k cols')
  end.

(** A row of a frame with columns [cols], realigned on the labels [u]:
    a label the frame does not have gives a null. *)
Definition reindex_row (cols u : list cell) (r : list cell) : list cell :=
  map (fun l => match index_of l cols with
                | Some j => nth j r None
                | None => None
                end) u.

(** Line 86: [pd.concat(tables, ignore_index=True)].  Frames with the same
    column index are stacked as they are.  Otherwise the union of the
    labels is taken and every frame is realigned on it, which pandas
    refuses ([InvalidIndexError]) for a frame whose labels are not unique. *)
Definition pd_concat (dfs : list DataFrame) : result DataFrame :=
  match dfs with
  | [] => Raise (ValueError "No objects to concatenate")
  | d0 :: _ =>
      if forallb (fun d => labels_eqb (columns d) (columns d0)) dfs then
        Ok (mkDF (columns d0) (flat_map data dfs))
      else if forallb (fun d => nodupb (columns d)) dfs then
        let u := union_labels (map columns dfs) in
        Ok (mkDF u (flat_map (fun d => map (reindex_row (columns d) u)
                                           (data d)) dfs))
      else Raise InvalidIndexError
  end.

(** Line 87: [result_df.columns = headers]. *)
Definition set_columns (hs : option (list cell)) (df : DataFrame)
  : result DataFrame :=
  match hs with
  | None => Raise TypeError
  | Some h =>
      if (length h =? length (columns df))%nat then Ok (mkDF h (data df))
      else Raise (ValueError "Length mismatch")
  end.

(** Lines 65-87: from the extracted tables to the unified frame. *)
Definition merge (rawTables : list RawTable) : result DataFrame :=
  st <- foldM loop_body loop_init rawTables ;;
  match tables st with
  | [] => Raise (ValueError "No tables found in the PDF.")
  | _ :: _ =>
      result_df <- pd_concat (tables st) ;;
      set_columns (headers st) result_df
  end.

(* ================================================================= *)
(** ** Aggregation *)

(** A value of the status column once the symbols are replaced. *)
Inductive pyval : Type :=
| PNone
| PStr (s : string)
| PInt (n : Z).

(** Line 89: [.replace({'P': 1, 'A': 0})] on one cell. *)
Definition replace_status (c : cell) : pyval :=
  match c with
  | None => PNone
  | Some s =>
      if String.eqb s "P" then PInt 1
      else if String.eqb s "A" then PInt 0
      else PStr s
  end.

(** The frame of lines 88-89: the labels of the two selected columns and,
    for every row, the course cell and the replaced status. *)
Record Selected : Type := mkSel {
  course_label : cell;
  status_label : cell;
  records : list (cell * pyval)
}.

(** Positions [1] and [-1] of a row of a frame with [n] columns. *)
Definition course_cell (r : list cell) : cell := nth 1 r None.
Definition status_cell (n : nat) (r : list cell) : cell := nth (n - 1) r None.

(** Lines 88-89: [result_df.iloc[:, [1, -1]]], then the replacement on the
    last column.  Position 1 is out of bounds for fewer than two columns. *)
Definition select_columns (df : DataFrame) : result Selected :=
  let n := length (columns df) in
  if (n <? 2)%nat then Raise IndexError
  else
    Ok (mkSel (course_cell (columns df))
              (status_cell n (columns df))
              (map (fun r => (course_cell r,
                              replace_status (status_cell n r)))
                   (data df))).

Definition notnull (v : pyval) : bool :=
  match v with PNone => false | _ => true end.

(** Python [a + b]. *)
Definition py_add (a b : pyval) : result pyval :=
  match a, b with
  | PInt x, PInt y => Ok (PInt (x + y))
  | PStr x, PStr y => Ok (PStr (x +++ y))
  | _, _ => Raise TypeError
  end.

(** ['sum'] of one group of an object column: nulls are skipped, the first
    value is taken as it is, the others are added with [+]; a group without
    values sums to the integer 0. *)
Definition group_sum (vals : list pyval) : result pyval :=
  match filter notnull vals with
  | [] => Ok (PInt 0)
  | v :: vs => foldM py_add v vs
  end.

(** ['count'] of one group: the number of values that are not null. *)
Definition group_count (vals : list pyval) : Z :=
  Z.of_nat (length (filter notnull vals)).

(** Python's order on [str], code point by code point. *)
Definition str_ltb (a b : string) : bool :=
  match String_as_OT.compare a b with Lt => true | _ => false end.

Fixpoint insert_key (k : string) (ks : list string) : list string :=
  match ks with
  | [] => [k]
  | x :: ks' =>
      if String.eqb k x then ks
      else if str_ltb k x then k :: ks
      else x :: insert_key k ks'
  end.

(** The group keys of [groupby] (with its defaults [sort=True],
    [dropna=True]): the distinct course names that are not null, sorted. *)
Definition group_keys (rs : list (cell * pyval)) : list string :=
  fold_right (fun r ks => match fst r with
                          | Some k => insert_key k ks
                          | None => ks
                          end) [] rs.

Definition in_group (k : string) (r : cell * pyval) : bool :=
  match fst r with
  | Some c => String.eqb c k
  | None => false
  end.

(** The status values of the rows of group [k], in row order. *)
Definition group_values (k : string) (rs : list (cell * pyval))
  : list pyval :=
  map snd (filter (in_group k) rs).

(** One row of [grouped_df] after line 93. *)
Record Grouped : Type := mkGrouped {
  g_course : string;
  sum_present : pyval;
  count_lecture : Z
}.

(** Lines 90-93: [groupby(course).agg({status: ['sum', 'count']})].
    Grouping by the label [None] is a [TypeError]; when both selected
    columns carry the same label the grouper is not one-dimensional
    ([ValueError]). *)
Definition groupby_agg (s : Selected) : result (list Grouped) :=
  match course_label s with
  | None => Raise TypeError
  | Some _ =>
      if cell_eqb (course_label s) (status_label s)
      then Raise (ValueError "Grouper not 1-dimensional")
      else
        mapM (fun k =>
                let vals := group_values k (records s) in
                total <- group_sum vals ;;
                Ok (mkGrouped k total (group_count vals)))
             (group_keys (records s))
  end.

(** One course of the aggregated frame.  [presentCount] is the number the
    sum denotes and [lectureCount] the count. *)
Record CourseStats : Type := mkStats {
  courseName : string;
  presentCount : Z;
  lectureCount : Z;
  percentage : Float64.float
}.

(** Line 94 for one row: [(sum / count) * 100] on Python objects. *)
Definition add_percentage (g : Grouped) : result CourseStats :=
  match sum_present g with
  | PInt z =>
      q <- Float64.int_truediv z (count_lecture g) ;;
      Ok (mkStats (g_course g) z (count_lecture g)
                  (Float64.fmul q (Float64.of_int 100)))
  | _ => Raise TypeError
  end.

(** Lines 88-94. *)
Definition aggregate (unified : DataFrame) : result (list CourseStats) :=
  sel <- select_columns unified ;;
  grouped <- groupby_agg sel ;;
  mapM add_percentage grouped.

(** Line 89 on the column as a whole.  [replace] returns a column of
    floats, [1.0] and [0.0], when some value is null and all the others
    have become numbers; the numbers are [int]s otherwise.  The assignment
    stores these objects, and the sums of line 91 are of their type. *)
Inductive held : Type :=
| AsInt
| AsFloat.

Definition is_number (v : pyval) : bool :=
  match v with PInt _ => true | _ => false end.

Definition held_by (vals : list pyval) : held :=
  if existsb (fun v => negb (notnull v)) vals &&
     existsb is_number vals &&
     forallb (fun v => negb (notnull v) || is_number v) vals
  then AsFloat else AsInt.

Definition sums_held (unified : DataFrame) : held :=
  held_by (map (fun r => replace_status
                           (status_cell (length (columns unified)) r))
               (data unified)).

(* ================================================================= *)
(** ** Report text *)

Definition of_bytes (l : list N) : string :=
  string_of_list_ascii (map ascii_of_N l).

Definition nl : string := of_bytes [10%N].

(** The four markers of lines 99-102, byte for byte as in the source. *)
Definition mark_present : string :=
  of_bytes [226; 128; 154; 195; 186; 195; 150]%N.
Definition mark_absent : string :=
  of_bytes [226; 128; 154; 195; 185; 195; 165]%N.
Definition mark_total : string :=
  of_bytes [239; 163; 191; 195; 188; 195; 172; 195; 164]%N.
Definition mark_percentage : string :=
  of_bytes [239; 163; 191; 195; 188; 195; 172; 195; 160]%N.

(** Line 99, [{row['Sum Present']}]: [str] of the sum, an [int] or a
    float as the frame holds it. *)
Definition str_sum (h : held) (sum : Z) : string :=
  match h with
  | AsInt => str_int sum
  | AsFloat => str_float (Float64.of_int sum)
  end.

(** Line 100, [{row['Count Lecture'] - row['Sum Present']}]: the count is
    an [int]; the difference is an [int], or a float when the sum is
    one. *)
Definition str_absent (h : held) (count sum : Z) : string :=
  match h with
  | AsInt => str_int (count - sum)
  | AsFloat =>
      str_float (Float64.fadd (Float64.of_int count)
                              (Float64.fneg (Float64.of_int sum)))
  end.

(** Lines 98-102: the text of one course. *)
Definition format_block (h : held) (st : CourseStats) : string :=
  "Course: " +++ courseName st +++ nl +++
  mark_present +++ " Present: " +++ str_sum h (presentCount st) +++ nl +++
  mark_absent +++ " Absent: " +++
    str_absent h (lectureCount st) (presentCount st) +++ nl +++
  mark_total +++ " Total: " +++ str_int (lectureCount st) +++ nl +++
  mark_percentage +++ " Percentage: " +++
    format_2f (percentage st) +++ "%" +++ nl.

(** Lines 96-105: ["\n".join(...)] of the blocks, for a frame whose sums
    are held as [h]. *)
Definition format (h : held) (stats : list CourseStats) : string :=
  String.concat nl (map (format_block h) stats).

(* ================================================================= *)
(** ** Chart *)

(** What [generate_chart] draws, as far as the source fixes it. *)
Record Bar : Type := mkBar {
  bar_course : string;
  bar_height : Float64.float
}.

(** A label of line 122: the bar it is centred on (bars of a categorical
    axis are centred on 0, 1, 2, ...), its height on the y axis and its
    text. *)
Record Annotation : Type := mkText {
  text_x : Z;
  text_y : Float64.float;
  text_s : string
}.

Record Figure : Type := mkFigure {
  fig_bars : list Bar;
  fig_texts : list Annotation;
  fig_xlabel : string;
  fig_ylabel : string;
  fig_title : string;
  fig_ylim : Z * Z
}.

(** The files of the machine: a path holds an image or nothing. *)
Definition FS : Type := string -> option Figure.

(** Line 138: [plt.savefig(chart_path)] creates the file or overwrites
    it. *)
Definition savefig (path : string) (fig : Figure) (fs : FS) : FS :=
  fun p => if String.eqb p path then Some fig else fs p.

Fixpoint annotate (i : Z) (bs : list Bar) : list Annotation :=
  match bs with
  | [] => []
  | b :: bs' =>
      mkText i (Float64.fadd (bar_height b) (Float64.of_int 2))
             (format_2f (bar_height b) +++ "%")
        :: annotate (i + 1) bs'
  end.

(** Lines 112-139.  No statement of the function raises on its own. *)
Definition generate_chart (grouped_df : list CourseStats)
  (chart_path : string) (fs : FS) : result FS :=
  let bars := map (fun st => mkBar (courseName st) (percentage st))
                  grouped_df in
  let fig := mkFigure bars (annotate 0 bars)
                      "Course" "Attendance Percentage" "Attendance Report"
                      (0, 110) in
  Ok (savefig chart_path fig fs).

(* ================================================================= *)
(** ** The pipeline *)

(** [os.path.join(a, b)] on a POSIX system. *)
Definition ends_with_slash (a : string) : bool :=
  match String.get (String.length a - 1) a with
  | Some c => Ascii.eqb c "/"%char
  | None => false
  end.

Definition path_join (a b : string) : string :=
  if String.prefix "/" b then b
  else if String.eqb a "" || ends_with_slash a then a +++ b
  else a +++ "/" +++ b.

Section Pipeline.

(** Line 29: the temporary directory of the process. *)
Variable TEMP_DIR : string.

(** Line 107. *)
Definition chart_file : string := path_join TEMP_DIR "attendance_chart.png".

(** Lines 64-110.  The PDF is given by the tables [pdfplumber] extracts
    from its pages; the result is the value returned or the exception
    raised, together with the files afterwards. *)
Definition process_pdf (pages : list (list RawTable)) (fs : FS)
  : result (string * string) * FS :=
  match (unified <- merge (concat pages) ;;
         grouped_df <- aggregate unified ;;
         Ok (sums_held unified, grouped_df)) with
  | Raise e => (Raise e, fs)
  | Ok (h, grouped_df) =>
      let report_text := format h grouped_df in
      match generate_chart grouped_df chart_file fs with
      | Raise e => (Raise e, fs)
      | Ok fs' => (Ok (report_text, chart_file), fs')
      end
  end.

End Pipeline.

(* ================================================================= *)
(** ** The document handler *)

(** Lines 35-62, [handle_document].  Of the Telegram side the handler
    sees the name of the document, if it has one, and what its bytes are
    to [pdfplumber]; it calls the Bot API (to fetch the document, to
    answer) and creates and removes files.  Whether a call of the API goes
    through and whether a file can be created at a path is not in the
    hands of the handler: the world decides, and the handler meets the
    exception when it does not.  A file that is there can be read and
    removed, and nothing else touches the files while the handler runs. *)

(** The bytes of a document: a PDF with its tables, or something
    [pdfplumber] cannot open. *)
Inductive document : Type :=
| PdfDocument (pages : list (list RawTable))
| NotPdf.

Inductive file : Type :=
| Upload (d : document)
| Image (fig : Figure).

Definition Disk : Type := string -> option file.

(** The exceptions met in the handler: those the statements of
    [process_pdf] raise, a document that is no PDF, [OSError] (a file that
    cannot be created, a file that is missing), a request to Telegram
    that fails, [None] in the place of the name, a local variable read
    before it is bound. *)
Inductive hexc : Type :=
| PipelineError (e : pyexc)
| PdfSyntaxError
| OSError
| TelegramError
| AttributeError
| UnboundLocalError.

Inductive outcome (A : Type) : Type :=
| Done (a : A)
| Failed (e : hexc).

Arguments Done {A} a.
Arguments Failed {A} e.

(** What the bot sends: [message.answer(text)], the answer of line 58
    whose text is ["Error processing PDF: "] followed by [str(e)], and
    [message.answer_photo(file, caption)]. *)
Inductive message : Type :=
| Answer (text : string)
| AnswerError (e : hexc)
| AnswerPhoto (photo : file) (caption : string).

(** The machine and the chat: the files, the messages sent so far, the
    paths at which [open(path, "wb")] succeeds, and for the calls of the
    Bot API to come, in their order, whether they go through. *)
Record World : Type := mkWorld {
  disk : Disk;
  outbox : list message;
  writable : string -> bool;
  telegram : nat -> bool
}.

Definition set_disk (d : Disk) (w : World) : World :=
  mkWorld d (outbox w) (writable w) (telegram w).

(** A statement of the handler: it returns or raises, and leaves a
    world. *)
Definition io (A : Type) : Type := World -> outcome A * World.

Definition io_bind {A B} (c : io A) (k : A -> io B) : io B :=
  fun w =>
    match c w with
    | (Done a, w') => k a w'
    | (Failed e, w') => (Failed e, w')
    end.

Notation "x <~ c ;; k" := (io_bind c (fun x => k))
  (at level 61, c at next level, right associativity).

(** One call of the Bot API. *)
Definition api_call : io unit :=
  fun w =>
    let w' := mkWorld (disk w) (outbox w) (writable w)
                      (fun n => telegram w (S n)) in
    if telegram w 0 then (Done tt, w') else (Failed TelegramError, w').

(** [message.answer] and [message.answer_photo]: the message is in the
    chat when the call has gone through. *)
Definition send (m : message) : io unit :=
  _ <~ api_call ;;
  fun w => (Done tt, mkWorld (disk w) (outbox w ++ [m]) (writable w)
                             (telegram w)).

(** [s.endswith(suffix)]: some tail of [s] is [suffix]. *)
Fixpoint ends_with (suffix s : string) : bool :=
  if String.eqb s suffix then true
  else match s with
       | EmptyString => false
       | String _ s' => ends_with suffix s'
       end.

(** Lines 46-47: [open(path, "wb")] and the write. *)
Definition write_file (path : string) (f : file) : io unit :=
  fun w =>
    if writable w path
    then (Done tt,
          set_disk (fun p => if String.eqb p path then Some f else disk w p)
                   w)
    else (Failed OSError, w).

(** [os.remove(path)]. *)
Definition os_remove (path : string) : io unit :=
  fun w =>
    match disk w path with
    | None => (Failed OSError, w)
    | Some _ =>
        (Done tt,
         set_disk (fun p => if String.eqb p path then None else disk w p) w)
    end.

(** The images of a disk, and a disk whose images are brought up to date:
    the pipeline reads and writes charts only. *)
Definition charts (d : Disk) : FS :=
  fun p => match d p with
           | Some (Image fig) => Some fig
           | _ => None
           end.

Definition with_charts (d : Disk) (fs : FS) : Disk :=
  fun p => match fs p with
           | Some fig => Some (Image fig)
           | None => d p
           end.

Section Handler.

Variable TEMP_DIR : string.

(** Line 50, [process_pdf(file_path)], in the world: [pdfplumber.open]
    reads the file at the path, and line 138 has to create the chart. *)
Definition process_file (file_path : string) : io (string * string) :=
  fun w =>
    match disk w file_path with
    | None => (Failed OSError, w)
    | Some (Upload (PdfDocument pages)) =>
        match process_pdf TEMP_DIR pages (charts (disk w)) with
        | (Ok r, fs') =>
            if writable w (chart_file TEMP_DIR)
            then (Done r, set_disk (with_charts (disk w) fs') w)
            else (Failed OSError, w)
        | (Raise e, fs') =>
            (Failed (PipelineError e), set_disk (with_charts (disk w) fs') w)
        end
    | Some _ => (Failed PdfSyntaxError, w)
    end.

(** Lines 54-55: the photo is read from the file when it is sent. *)
Definition answer_photo (path caption : string) : io unit :=
  fun w =>
    match disk w path with
    | None => (Failed OSError, w)
    | Some photo => send (AnswerPhoto photo caption) w
    end.

(** The state at the end of the [try] block: the local variable
    [chart_path] if it is bound, the exception if one was raised. *)
Record try_state : Type := mkTry {
  chart_path_var : option string;
  raised : option hexc;
  world_after : World
}.

(** Lines 50-55. *)
Definition try_block (file_path : string) (w : World) : try_state :=
  match process_file file_path w with
  | (Failed e, w1) => mkTry None (Some e) w1
  | (Done (report_text, chart_path), w1) =>
      match (_ <~ send (Answer ("Here is your generated report:" +++ nl +++
                                nl +++ report_text)) ;;
             answer_photo chart_path "Here is the attendance chart.") w1 with
      | (Done _, w2) => mkTry (Some chart_path) None w2
      | (Failed e, w2) => mkTry (Some chart_path) (Some e) w2
      end
  end.

(** Lines 57-58: [except Exception as e].  An exception raised by the
    answer itself is pending when the [finally] block is entered. *)
Definition except_block (t : try_state) : option hexc * World :=
  match raised t with
  | None => (None, world_after t)
  | Some e =>
      match send (AnswerError e) (world_after t) with
      | (Done _, w) => (None, w)
      | (Failed e', w) => (Some e', w)
      end
  end.

(** Lines 59-62.  Reading [chart_path] when line 50 has not bound it raises
    [UnboundLocalError]; an exception of the block takes the place of the
    pending one, which is raised again when the block ends normally. *)
Definition finally_block (file_path : string) (chart_path : option string)
  (pending : option hexc) : io unit :=
  _ <~ os_remove file_path ;;
  p <~ (fun w => match chart_path with
                 | None => (Failed UnboundLocalError, w)
                 | Some p => (Done p, w)
                 end) ;;
  _ <~ (fun w => match disk w p with                   (* os.path.exists *)
                 | None => (Done tt, w)
                 | Some _ => os_remove p w
                 end) ;;
  fun w => match pending with
           | None => (Done tt, w)
           | Some e => (Failed e, w)
           end.

(** Lines 36-62.  [file_name] is [document.file_name], which Telegram may
    leave out; [downloaded] is what the download gives when it goes
    through. *)
Definition handle_document (file_name : option string)
  (downloaded : document) : io unit :=
  match file_name with
  | None => fun w => (Failed AttributeError, w)
  | Some name =>
      if negb (ends_with ".pdf" name) then
        send (Answer "Please send a valid PDF file.")
      else
        let file_path := path_join TEMP_DIR name in
        _ <~ api_call ;;                               (* bot.get_file *)
        _ <~ api_call ;;                               (* bot.download_file *)
        _ <~ write_file file_path (Upload downloaded) ;;
        fun w =>
          let t := try_block file_path w in
          let (pending, w') := except_block t in
          finally_block file_path (chart_path_var t) pending w'
  end.

End Handler.

(* ================================================================= *)
(** ** Vocabulary of the statements *)

(** *** Rows, groups and layouts *)

(** The rows of [u] that belong to the course [name]. *)
Definition group_rows (u : DataFrame) (name : string) : list (list cell) :=
  filter (fun r => cell_eqb (course_cell r) (Some name)) (data u).

(** The mapped status of a row of [u]. *)
Definition mapped_status (u : DataFrame) (r : list cell) : pyval :=
  replace_status (status_cell (length (columns u)) r).

Definition records_of (u : DataFrame) : list (cell * pyval) :=
  map (fun r => (course_cell r, mapped_status u r)) (data u).

(** The layout the aggregation needs: at least two columns, a second
    label that is not null and differs from the last one. *)
Definition layout_okb (u : DataFrame) : bool :=
  (2 <=? length (columns u))%nat &&
  match course_cell (columns u) with Some _ => true | None => false end &&
  negb (cell_eqb (course_cell (columns u))
                 (status_cell (length (columns u)) (columns u))).

Definition layout_ok (u : DataFrame) : Prop := layout_okb u = true.

(** The layout of the report: moreover the last label is not null. *)
Definition expected_layout (u : DataFrame) : Prop :=
  layout_okb u &&
  match status_cell (length (columns u)) (columns u) with
  | Some _ => true
  | None => false
  end = true.

Definition is_PA (c : cell) : bool :=
  cell_eqb c (Some "P") || cell_eqb c (Some "A").

(** Every status cell of [u] is ["P"] or ["A"]. *)
Definition status_PA (u : DataFrame) : Prop :=
  forallb (fun r => is_PA (status_cell (length (columns u)) r)) (data u)
  = true.

(** A cell as the Python object it is. *)
Definition as_is (c : cell) : pyval :=
  match c with
  | Some s => PStr s
  | None => PNone
  end.

(** *** Sums *)

Definition is_int (v : pyval) : bool :=
  match v with PInt _ => true | _ => false end.

Definition is_str (v : pyval) : bool :=
  match v with PStr _ => true | _ => false end.

Fixpoint int_total (vs : list pyval) : Z :=
  match vs with
  | [] => 0
  | PInt z :: vs' => z + int_total vs'
  | _ :: vs' => int_total vs'
  end.

Definition bit (v : pyval) : Prop := v = PInt 0 \/ v = PInt 1.

Definition str_lt (a b : string) : Prop := str_ltb a b = true.

(** The row of [grouped_df] for the key [k]. *)
Definition group_of (rs : list (cell * pyval)) (k : string)
  : result Grouped :=
  total <- group_sum (group_values k rs) ;;
  Ok (mkGrouped k total (group_count (group_values k rs))).

(** Two rows of [grouped_df] that line 94 cannot tell apart. *)
Definition same_outcome (g g' : Grouped) : Prop :=
  g = g' \/ exists s s', sum_present g = PStr s /\ sum_present g' = PStr s'.

Definition same_result (r r' : result Grouped) : Prop :=
  match r, r' with
  | Ok g, Ok g' => same_outcome g g'
  | Raise e, Raise e' => e = e'
  | _, _ => False
  end.

(** *** Headers *)

(** The header row and the data rows of a table, as [pd.DataFrame] sees
    them. *)
Definition header_row (t : RawTable) : option (list cell) :=
  hd_error (frame_rows t).

Definition data_rows (t : RawTable) : list (list cell) := tl (frame_rows t).

(** A data row of a table after the first one, in the unified frame: the
    cell under the first label is null when that label is a string. *)
Definition blank_first (h r : list cell) : list cell :=
  match h with
  | Some _ :: _ => None :: tl r
  | _ => r
  end.

(** The frame appended at line 81 for a table after the first one. *)
Definition later_frame (h : list cell) (t : RawTable) : DataFrame :=
  match h with
  | Some _ :: hrest => mkDF hrest (map (@tl cell) (data_rows t))
  | _ => mkDF h (data_rows t)
  end.

(** *** Text *)

(** A line of text, ended by a newline. *)
Definition line (s : string) : string := s +++ nl.

(** The block of one course, line by line, the sums being held as [h]. *)
Definition report_block (h : held) (st : CourseStats) : string :=
  line ("Course: " +++ courseName st) +++
  line (mark_present +++ " Present: " +++ str_sum h (presentCount st)) +++
  line (mark_absent +++ " Absent: " +++
        str_absent h (lectureCount st) (presentCount st)) +++
  line (mark_total +++ " Total: " +++ str_int (lectureCount st)) +++
  line (mark_percentage +++ " Percentage: " +++
        format_2f (percentage st) +++ "%").

(** The blocks, each followed by a blank line except the last one. *)
Fixpoint join_blocks (blocks : list string) : string :=
  match blocks with
  | [] => ""
  | [b] => b
  | b :: rest => b +++ line "" +++ join_blocks rest
  end.

(** The lines of a text, as [text.split("\n")] gives them. *)
Fixpoint lines_from (cur : string) (s : string) : list string :=
  match s with
  | EmptyString => [cur]
  | String c s' =>
      if Ascii.eqb c (ascii_of_N 10) then cur :: lines_from "" s'
      else lines_from (cur +++ String c "") s'
  end.

Definition lines_of (s : string) : list string := lines_from "" s.

Definition contains (needle hay : string) : bool :=
  match String.index 0 needle hay with
  | Some _ => true
  | None => false
  end.

(** For the integers [0 <= sum <= count < n], the float that stands for the
    sum and the float that stands for the difference are written as the
    integer followed by [.0]. *)
Definition float_text_up_to (n : nat) : bool :=
  forallb (fun c =>
    forallb (fun p =>
      String.eqb (str_sum AsFloat (Z.of_nat p))
                 (str_int (Z.of_nat p) +++ ".0") &&
      String.eqb (str_absent AsFloat (Z.of_nat c) (Z.of_nat p))
                 (str_int (Z.of_nat c - Z.of_nat p) +++ ".0"))
            (seq 0 (S c)))
          (seq 0 n).

(** The chart without bars. *)
Definition empty_chart : Figure :=
  mkFigure [] [] "Course" "Attendance Percentage" "Attendance Report" (0, 110).

(** The machine without files. *)
Definition no_files : FS := fun _ => None.

(** *** Comparison with [SpecFloat] *)

(** A float of this file as a [spec_float] with a 53-bit mantissa. *)
Definition to_spec (x : Float64.float) : spec_float :=
  match x with
  | Float64.FNaN => S754_nan
  | Float64.FInf s => S754_infinity s
  | Float64.FFin m e =>
      match m with
      | Z0 => S754_zero false
      | Zpos p =>
          if m =? 2 ^ 53 then S754_finite false (Z.to_pos (2 ^ 52)) (e + 1)
          else S754_finite false p e
      | Zneg p =>
          if m =? - 2 ^ 53 then S754_finite true (Z.to_pos (2 ^ 52)) (e + 1)
          else S754_finite true p e
      end
  end.

Definition spec_of_int (n : Z) : spec_float :=
  binary_normalize 53 1024 n 0 false.

Definition spec_eqb (a b : spec_float) : bool :=
  match a, b with
  | S754_zero _, S754_zero _ => true
  | S754_finite s m e, S754_finite s' m' e' =>
      Bool.eqb s s' && Pos.eqb m m' && Z.eqb e e'
  | _, _ => false
  end.

(** [p / c], [(p / c) * 100] and [(p / c) * 100 + 2] are the same here and
    in [SpecFloat]. *)
Definition agrees_with_spec (p c : Z) : bool :=
  let sq := SFdiv 53 1024 (spec_of_int p) (spec_of_int c) in
  let spct := SFmul 53 1024 sq (spec_of_int 100) in
  match Float64.int_truediv p c with
  | Ok q =>
      let pct := Float64.fmul q (Float64.of_int 100) in
      spec_eqb (to_spec q) sq &&
      spec_eqb (to_spec pct) spct &&
      spec_eqb (to_spec (Float64.fadd pct (Float64.of_int 2)))
               (SFadd 53 1024 spct (spec_of_int 2))
  | Raise _ => false
  end.

(** All the pairs [0 <= p <= c], [1 <= c <= n]. *)
Definition agrees_up_to (n : nat) : bool :=
  forallb (fun c => forallb (fun p => agrees_with_spec (Z.of_nat p)
                                                       (Z.of_nat (S c)))
                            (seq 0 (S (S c))))
          (seq 0 n).

(** *** Frames, counted rows and sums of integers *)

(** Every row of the frame has one cell per column. *)
Definition rectangular (d : DataFrame) : Prop :=
  Forall (fun r => length r = length (columns d)) (data d).

(** The number a mapped status adds to the sum of its group, when the sum
    is a number. *)
Definition present_value (v : pyval) : Z :=
  match v with PInt z => z | _ => 0 end.

Definition sumZ (l : list Z) : Z := fold_right Z.add 0 l.

(** The row has a course name. *)
Definition has_course (r : list cell) : bool :=
  match course_cell r with Some _ => true | None => false end.

(** The rows of [u] that are counted: with a course name and a status. *)
Definition counted (u : DataFrame) (r : list cell) : bool :=
  has_course r && notnull (mapped_status u r).

(** The status of the row is ["P"]. *)
Definition is_present (u : DataFrame) (r : list cell) : bool :=
  cell_eqb (status_cell (length (columns u)) r) (Some "P").

(** *** The pipeline and the handler *)

(** The statistics of a PDF, lines 64-94. *)
Definition statistics (pages : list (list RawTable))
  : result (list CourseStats) :=
  unified <- merge (concat pages) ;; aggregate unified.

(** The figure [generate_chart] draws for the statistics. *)
Definition figure_of (stats : list CourseStats) : Figure :=
  let bars := map (fun st => mkBar (courseName st) (percentage st)) stats in
  mkFigure bars (annotate 0 bars)
           "Course" "Attendance Percentage" "Attendance Report" (0, 110).

(** The exception line 50 raises on a document, if any: the document is
    no PDF, a statement of the pipeline raises, or the chart cannot be
    created. *)
Definition failure_of (chart_writable : bool) (d : document)
  : option hexc :=
  match d with
  | NotPdf => Some PdfSyntaxError
  | PdfDocument pages =>
      match statistics pages with
      | Raise e => Some (PipelineError e)
      | Ok _ => if chart_writable then None else Some OSError
      end
  end.

(** The two answers to a document that is processed. *)
Definition report_message (h : held) (stats : list CourseStats) : message :=
  Answer ("Here is your generated report:" +++ nl +++ nl +++
          format h stats).

Definition chart_message (stats : list CourseStats) : message :=
  AnswerPhoto (Image (figure_of stats)) "Here is the attendance chart.".

(** The answers to a document that line 50 has processed, as the three
    calls of the Bot API that may follow go through or not. *)
Definition answers (t0 t1 t2 : bool) (report photo : message)
  : list message :=
  if t0 then
    if t1 then [report; photo]
    else if t2 then [report; AnswerError TelegramError] else [report]
  else if t1 then [AnswerError TelegramError] else [].

Definition answered (t0 t1 t2 : bool) : outcome unit :=
  if t0 then
    if t1 then Done tt
    else if t2 then Done tt else Failed TelegramError
  else if t1 then Done tt else Failed TelegramError.

(** The last character of a string. *)
Fixpoint last_char (s : string) : option ascii :=
  match s with
  | EmptyString => None
  | String c EmptyString => Some c
  | String _ s' => last_char s'
  end.

(* ================================================================= *)
(** ** Sample inputs *)

Definition hundred : Float64.float := Float64.FFin 7036874417766400 (-46).
Definition seventy_five : Float64.float :=
  Float64.FFin 5277655813324800 (-46).
Definition fifty : Float64.float := Float64.FFin 7036874417766400 (-47).

(** Three courses; CourseA has P, P, A, P. *)
Definition table_three_courses : DataFrame :=
  mkDF [Some ""; Some "Course"; Some "Status"]
       [[Some "1"; Some "CourseA"; Some "P"];
        [Some "2"; Some "CourseB"; Some "A"];
        [Some "3"; Some "CourseA"; Some "P"];
        [Some "4"; Some "CourseC"; Some "P"];
        [Some "5"; Some "CourseA"; Some "A"];
        [Some "6"; Some "CourseB"; Some "P"];
        [Some "7"; Some "CourseA"; Some "P"]].

Definition stats_three_courses : list CourseStats :=
  [mkStats "CourseA" 3 4 seventy_five;
   mkStats "CourseB" 1 2 fifty;
   mkStats "CourseC" 1 1 hundred].

(** The same table, its first two rows exchanged. *)
Definition table_three_courses_swapped : DataFrame :=
  mkDF [Some ""; Some "Course"; Some "Status"]
       [[Some "2"; Some "CourseB"; Some "A"];
        [Some "1"; Some "CourseA"; Some "P"];
        [Some "3"; Some "CourseA"; Some "P"];
        [Some "4"; Some "CourseC"; Some "P"];
        [Some "5"; Some "CourseA"; Some "A"];
        [Some "6"; Some "CourseB"; Some "P"];
        [Some "7"; Some "CourseA"; Some "P"]].

(** A status cell that is null. *)
Definition table_null_status : DataFrame :=
  mkDF [Some ""; Some "Course"; Some "Status"]
       [[Some "1"; Some "Math"; Some "P"];
        [Some "2"; Some "Math"; None]].

(** A symbol outside the vocabulary, on a row without course name. *)
Definition table_null_course : DataFrame :=
  mkDF [Some ""; Some "Course"; Some "Status"]
       [[Some "1"; Some "Math"; Some "P"];
        [Some "2"; None; Some "X"]].

(** A symbol outside the vocabulary, on a row of a course. *)
Definition table_unknown_symbol : DataFrame :=
  mkDF [Some ""; Some "Course"; Some "Status"]
       [[Some "1"; Some "Math"; Some "P"];
        [Some "2"; Some "Math"; Some "L"]].

Definition stats_art : CourseStats := mkStats "Art" 1 2 fifty.
Definition stats_math : CourseStats := mkStats "Math" 3 4 seventy_five.

(** Two pages that repeat the header of the report. *)
Definition report_header : list cell :=
  [Some ""; Some "Course"; Some "Date1"; Some "Date2"].

Definition page_one : RawTable :=
  [report_header;
   [Some "1"; Some "Math"; Some "P"; Some "P"];
   [Some "2"; Some "Art"; Some "A"; Some "P"]].

Definition page_two : RawTable :=
  [report_header;
   [Some "3"; Some "Math"; Some "P"; Some "A"]].

(** Two pages whose header carries the empty label twice. *)
Definition twice_header : list cell :=
  [Some ""; Some "Course"; Some ""; Some "Status"].

Definition twice_page_one : RawTable :=
  [twice_header; [Some "1"; Some "Math"; Some "x"; Some "P"]].

Definition twice_page_two : RawTable :=
  [twice_header; [Some "2"; Some "Math"; Some "y"; Some "A"]].

(** A PDF whose only table has no data row, and one with a single row. *)
Definition pdf_header_only : list (list RawTable) :=
  [[[[Some ""; Some "Course"; Some "Status"]]]].

Definition pdf_one_row : list (list RawTable) :=
  [[[[Some ""; Some "Course"; Some "Status"];
     [Some "1"; Some "Math"; Some "P"]]]].

(** The unified table of the two pages. *)
Definition merged_pages : DataFrame :=
  mkDF report_header
       [[Some "1"; Some "Math"; Some "P"; Some "P"];
        [Some "2"; Some "Art"; Some "A"; Some "P"];
        [None; Some "Math"; Some "P"; Some "A"]].

(** A table that agrees with [merged_pages] on the second and on the last
    column only. *)
Definition table_other_dates_cells : DataFrame :=
  mkDF report_header
       [[Some "7"; Some "Math"; Some "A"; Some "P"];
        [Some "8"; Some "Art"; None; Some "P"];
        [Some "9"; Some "Math"; Some "A"; Some "A"]].

(** A second page whose last column is another date. *)
Definition other_dates_header : list cell :=
  [Some ""; Some "Course"; Some "Date1"; Some "Date3"].

Definition page_other_dates : RawTable :=
  [other_dates_header; [Some "3"; Some "Math"; Some "P"; Some "A"]].

(** A table without the leading column of the report. *)
Definition table_two_columns : DataFrame :=
  mkDF [Some "Course"; Some "Status"] [[Some "Math"; Some "P"]].

Definition short_header : list cell :=
  [Some ""; Some "Course"; Some "Status"].

Definition stats_one_row : list CourseStats := [mkStats "Math" 1 1 hundred].

(** The unified table of [pdf_one_row]. *)
Definition unified_one_row : DataFrame :=
  mkDF short_header [[Some "1"; Some "Math"; Some "P"]].

(** A machine without files on which nothing was sent yet, where every
    file can be created and every call goes through. *)
Definition empty_world : World :=
  mkWorld (fun _ => None) [] (fun _ => true) (fun _ => true).

(** The same machine with a directory that is missing. *)
Definition missing_directory : World :=
  mkWorld (fun _ => None) []
          (fun p => negb (String.prefix "/tmp/missing_dir/" p))
          (fun _ => true).

(* ================================================================= *)
(** ** Facts on binary64 rounding *)

Section Rounding.

Import Float64.

Lemma rne_nonneg num den : 0 <= num -> 0 < den -> 0 <= rne num den.
Proof.
  intros Hn Hd. unfold rne.
  assert (0 <= num / den) by (apply Z.div_pos; lia).
  destruct (2 * (num mod den) ?= den); [destruct (Z.even _) | | ]; lia.
Qed.

Lemma rne_le num den N :
  0 <= num -> 0 < den -> num <= N * den -> rne num den <= N.
Proof.
  intros Hn Hd Hle. unfold rne.
  pose proof (Z.div_mod num den ltac:(lia)) as Hdm.
  pose proof (Z.mod_pos_bound num den Hd) as Hr.
  assert (Hq : num / den <= N) by (apply Z.div_le_upper_bound; lia).
  destruct (Z.eq_dec (num / den) N) as [E | E].
  - assert (num mod den = 0) by nia.
    replace (2 * (num mod den) ?= den) with Lt; [lia|].
    symmetry. apply Z.compare_lt_iff. lia.
  - destruct (2 * (num mod den) ?= den); [destruct (Z.even _) | | ]; lia.
Qed.

Lemma ilog2_ratio_le n d B :
  0 < n -> 0 < d -> n <= B * d -> B < 2 ^ 53 -> ilog2_ratio n d <= 52.
Proof.
  intros Hn Hd Hle HB. unfold ilog2_ratio, scaled_le.
  pose proof (Z.log2_spec n Hn) as [Hn1 Hn2].
  pose proof (Z.log2_spec d Hd) as [Hd1 Hd2].
  pose proof (Z.log2_nonneg n). pose proof (Z.log2_nonneg d).
  set (k := Z.log2 n - Z.log2 d) in *.
  assert (HBd : B * d < 2 ^ 53 * d) by (apply Z.mul_lt_mono_pos_r; lia).
  destruct (Z_le_gt_dec k 52) as [Hk | Hk].
  - destruct (if 0 <=? k then _ else _); lia.
  - destruct (Z_le_gt_dec k 53) as [Hk' | Hk'].
    + assert (Ek : k = 53) by lia. rewrite Ek.
      change (0 <=? 53) with true. cbv iota.
      destruct (Z.leb_spec (d * 2 ^ 53) n); lia.
    + exfalso.
      assert (Hp : 2 ^ Z.log2 n = 2 ^ k * 2 ^ Z.log2 d).
      { rewrite <- Z.pow_add_r by lia. f_equal. unfold k. lia. }
      assert (H54 : 2 ^ 54 <= 2 ^ k) by (apply Z.pow_le_mono_r; lia).
      rewrite Z.pow_succ_r in Hd2 by lia.
      assert (0 < 2 ^ Z.log2 d) by (apply Z.pow_pos_nonneg; lia).
      assert (2 ^ 54 * 2 ^ Z.log2 d <= 2 ^ k * 2 ^ Z.log2 d)
        by (apply Z.mul_le_mono_nonneg_r; lia).
      change (2 ^ 54) with (2 ^ 53 * 2) in *.
      assert (2 ^ 53 * d < 2 ^ 53 * (2 * 2 ^ Z.log2 d))
        by (apply Z.mul_lt_mono_pos_l; lia).
      lia.
Qed.

Lemma round_pos_bound n d B :
  0 < n -> 0 < d -> n <= B * d -> 0 < B < 2 ^ 53 ->
  exists m e, round_pos n d = FFin m e /\ e <= 0 /\ 0 <= m <= B * 2 ^ (- e).
Proof.
  intros Hn Hd Hle HB. unfold round_pos.
  pose proof (@ilog2_ratio_le n d B Hn Hd Hle ltac:(lia)) as HL.
  set (e := Z.max (ilog2_ratio n d - (prec - 1)) emin).
  assert (He : e <= 0) by (unfold e, prec, emin; lia).
  assert (Hemin : emin <= e) by (unfold e; lia).
  set (m := if 0 <=? e then rne n (d * 2 ^ e) else rne (n * 2 ^ (- e)) d).
  assert (Hp : 0 < 2 ^ (- e)) by (apply Z.pow_pos_nonneg; lia).
  assert (Hm : 0 <= m <= B * 2 ^ (- e)).
  { unfold m. destruct (Z.leb_spec 0 e).
    - assert (e = 0) by lia. subst e. rewrite H0. simpl (2 ^ 0). simpl (- 0).
      simpl (2 ^ 0). split.
      + apply rne_nonneg; lia.
      + apply rne_le; lia.
    - assert (n * 2 ^ (- e) <= B * d * 2 ^ (- e))
        by (apply Z.mul_le_mono_nonneg_r; lia).
      assert (0 <= n * 2 ^ (- e)) by (apply Z.mul_nonneg_nonneg; lia).
      split.
      + apply rne_nonneg; lia.
      + apply rne_le; lia. }
  exists m, e.
  replace (emax <=? Z.log2 m + e) with false; [auto|].
  symmetry. apply Z.leb_gt.
  destruct (Z.eq_dec m 0) as [-> | Hm0].
  - simpl. unfold emax. lia.
  - assert (Z.log2 m < 53 - e).
    { apply Z.log2_lt_pow2; [lia|].
      replace (53 - e) with (53 + - e) by lia.
      rewrite Z.pow_add_r by lia. nia. }
    unfold emax. lia.
Qed.

Lemma round_ratio_bound n d B :
  0 <= n -> 0 < d -> n <= B * d -> 0 < B < 2 ^ 53 ->
  exists m e, round_ratio n d = FFin m e /\ e <= 0 /\ 0 <= m <= B * 2 ^ (- e).
Proof.
  intros Hn Hd Hle HB. destruct n as [| p | p].
  - exists 0, 0. change (2 ^ (- 0)) with 1. split; [reflexivity | lia].
  - apply round_pos_bound; lia.
  - lia.
Qed.

(** The rounding of this file against the one of the standard library, on
    the percentages of all the courses of at most 64 lectures. *)
Lemma rounding_agrees_with_SpecFloat : agrees_up_to 64 = true.
Proof. vm_compute. reflexivity. Qed.

Lemma of_int_100 : of_int 100 = FFin 7036874417766400 (-46).
Proof. reflexivity. Qed.

(** The percentage of a course present [p] times out of [c]. *)
Lemma percentage_bound p c :
  0 <= p <= c -> 0 < c ->
  exists q m e,
    int_truediv p c = Ok q /\
    fmul q (of_int 100) = FFin m e /\
    e <= 0 /\ 0 <= m <= 100 * 2 ^ (- e).
Proof.
  intros Hp Hc.
  destruct (@round_ratio_bound p c 1) as (m & e & Hr & He & Hm); try lia.
  unfold int_truediv.
  replace (c =? 0) with false by (symmetry; apply Z.eqb_neq; lia).
  replace (0 <? c) with true by (symmetry; apply Z.ltb_lt; lia).
  rewrite Hr. simpl is_inf. cbv iota.
  exists (FFin m e). rewrite of_int_100. unfold fmul.
  replace (0 <=? e + -46) with false by (symmetry; apply Z.leb_gt; lia).
  assert (Hpe : 0 < 2 ^ (- e)) by (apply Z.pow_pos_nonneg; lia).
  assert (Hd : 0 < 2 ^ (- (e + -46))) by (apply Z.pow_pos_nonneg; lia).
  assert (Hn : m * 7036874417766400 <= 100 * 2 ^ (- (e + -46))).
  { replace (- (e + -46)) with (- e + 46) by lia.
    rewrite Z.pow_add_r by lia. change (2 ^ 46) with 70368744177664. lia. }
  destruct (@round_ratio_bound (m * 7036874417766400) (2 ^ (- (e + -46))) 100)
    as (m' & e' & Hr' & He' & Hm'); [lia | lia | lia | lia |].
  exists m', e'. auto.
Qed.

Lemma F2Q_bound m e B :
  e <= 0 -> 0 <= m <= B * 2 ^ (- e) ->
  (Qle (inject_Z 0) (F2Q (FFin m e)) /\ Qle (F2Q (FFin m e)) (inject_Z B)).
Proof.
  intros He Hm. unfold F2Q.
  assert (Hpe : 0 < 2 ^ (- e)) by (apply Z.pow_pos_nonneg; lia).
  destruct (Z.leb_spec 0 e).
  - assert (e = 0) by lia. subst e. simpl in *.
    rewrite <- !Zle_Qle. lia.
  - unfold Qle, inject_Z. simpl Qnum. simpl Qden.
    rewrite Z2Pos.id by lia. lia.
Qed.


End Rounding.

(* ================================================================= *)
(** ** Facts on the aggregation *)

(** In a hypothesis [H : (x <- c ;; k) = Ok _] the computation [c] has
    returned: name its value [x] and the equation [E]. *)
Ltac bind_ok H x E :=
  match type of H with
  | bind ?c _ = _ =>
      destruct c as [x |] eqn:E; simpl in H; [| discriminate H]
  end.

Create HintDb frames.

(** *** mapM *)

Lemma mapM_ok_Forall2 {A B} (f : A -> result B) l bs :
  mapM f l = Ok bs -> Forall2 (fun a b => f a = Ok b) l bs.
Proof.
  revert bs. induction l as [| a l IH]; simpl; intros bs H.
  - inversion H. constructor.
  - bind_ok H b Ea.
    bind_ok H bs' El.
    inversion H; subst. constructor; auto.
Qed.

Lemma Forall2_mapM_ok {A B} (f : A -> result B) l bs :
  Forall2 (fun a b => f a = Ok b) l bs -> mapM f l = Ok bs.
Proof.
  induction 1 as [| a b l bs Hab _ IH]; simpl; [reflexivity |].
  rewrite Hab, IH. reflexivity.
Qed.

(** *** Sums of one group *)

Lemma foldM_add_ints vs : forall z,
  forallb is_int vs = true ->
  foldM py_add (PInt z) vs = Ok (PInt (z + int_total vs)).
Proof.
  induction vs as [| v vs IH]; simpl; intros z H.
  - f_equal. f_equal. lia.
  - apply andb_true_iff in H as [Hv Hvs]. destruct v; try discriminate.
    simpl. rewrite IH by assumption. f_equal. f_equal. lia.
Qed.

Lemma foldM_add_strs vs : forall s,
  forallb is_str vs = true ->
  exists s', foldM py_add (PStr s) vs = Ok (PStr s').
Proof.
  induction vs as [| v vs IH]; simpl; intros s H.
  - eauto.
  - apply andb_true_iff in H as [Hv Hvs]. destruct v; try discriminate.
    simpl. apply IH. assumption.
Qed.

Lemma foldM_add_int_bad vs : forall z,
  forallb is_int vs = false -> foldM py_add (PInt z) vs = Raise TypeError.
Proof.
  induction vs as [| v vs IH]; simpl; intros z H; [discriminate |].
  destruct v; simpl in *; auto.
Qed.

Lemma foldM_add_str_bad vs : forall s,
  forallb is_str vs = false -> foldM py_add (PStr s) vs = Raise TypeError.
Proof.
  induction vs as [| v vs IH]; simpl; intros s H; [discriminate |].
  destruct v; simpl in *; auto.
Qed.

(** The three outcomes of a group sum. *)
Lemma group_sum_cases vals :
  let nn := filter notnull vals in
  (forallb is_int nn = true /\ group_sum vals = Ok (PInt (int_total nn))) \/
  (forallb is_int nn = false /\ forallb is_str nn = true /\
   exists s, group_sum vals = Ok (PStr s)) \/
  (forallb is_int nn = false /\ forallb is_str nn = false /\
   group_sum vals = Raise TypeError).
Proof.
  intros nn. unfold group_sum. fold nn.
  assert (Hnn : forallb notnull nn = true).
  { apply forallb_forall. intros x Hx. apply filter_In in Hx. tauto. }
  destruct nn as [| v vs]; [left; auto |].
  simpl in Hnn. apply andb_true_iff in Hnn as [Hv _].
  destruct v as [| s | z]; [discriminate | |]; simpl.
  - right. destruct (forallb is_str vs) eqn:E.
    + left. split; [reflexivity | split; [reflexivity |]].
      apply foldM_add_strs. assumption.
    + right. split; [reflexivity | split; [reflexivity |]].
      apply foldM_add_str_bad. assumption.
  - destruct (forallb is_int vs) eqn:E.
    + left. split; [reflexivity |]. apply foldM_add_ints. assumption.
    + right. right. split; [reflexivity | split; [reflexivity |]].
      apply foldM_add_int_bad. assumption.
Qed.

Lemma forallb_Permutation {A} (p : A -> bool) l l' :
  Permutation l l' -> forallb p l = forallb p l'.
Proof.
  induction 1; simpl; try congruence.
  - destruct (p x), (p y); reflexivity.
Qed.

Lemma filter_Permutation {A} (p : A -> bool) l l' :
  Permutation l l' -> Permutation (filter p l) (filter p l').
Proof.
  induction 1; simpl.
  - constructor.
  - destruct (p x); auto.
  - destruct (p x), (p y); auto using perm_swap.
  - eapply perm_trans; eauto.
Qed.

Lemma int_total_Permutation l l' :
  Permutation l l' -> int_total l = int_total l'.
Proof.
  induction 1; simpl; try congruence.
  - destruct x; congruence.
  - destruct x, y; lia.
Qed.

(** *** Group keys *)

Lemma str_ltb_lt a b : str_ltb a b = true <-> String_as_OT.lt a b.
Proof.
  unfold str_ltb, String_as_OT.lt.
  destruct (String_as_OT.compare a b); split; congruence.
Qed.

Lemma str_lt_irrefl a : ~ str_lt a a.
Proof.
  unfold str_lt. rewrite str_ltb_lt.
  apply (@StrictOrder_Irreflexive _ _ String_as_OT.lt_strorder).
Qed.

Lemma str_lt_trans a b c : str_lt a b -> str_lt b c -> str_lt a c.
Proof.
  unfold str_lt. rewrite !str_ltb_lt.
  apply (@StrictOrder_Transitive _ _ String_as_OT.lt_strorder).
Qed.

Lemma str_lt_total a b : a <> b -> str_ltb a b = false -> str_lt b a.
Proof.
  intros Hne Hlt. unfold str_lt. rewrite str_ltb_lt.
  unfold str_ltb in Hlt.
  destruct (String_as_OT.compare_spec a b) as [E | L | G];
    [contradiction | discriminate | exact G].
Qed.

Lemma insert_key_In k ks x : In x (insert_key k ks) <-> x = k \/ In x ks.
Proof.
  induction ks as [| y ks IH]; simpl.
  - intuition.
  - destruct (String.eqb_spec k y) as [-> | Hne].
    + simpl. intuition.
    + destruct (str_ltb k y); simpl; [intuition | rewrite IH; intuition].
Qed.

Lemma insert_key_sorted k ks :
  StronglySorted str_lt ks -> StronglySorted str_lt (insert_key k ks).
Proof.
  induction 1 as [| y ks Hs IH Hy]; simpl.
  - repeat constructor.
  - destruct (String.eqb_spec k y) as [-> | Hne].
    + constructor; assumption.
    + destruct (str_ltb k y) eqn:Hlt.
      * constructor; [constructor; assumption |].
        constructor; [exact Hlt |].
        eapply Forall_impl; [| exact Hy].
        intros z Hz. eapply str_lt_trans; eauto. 
      * constructor; [assumption |].
        apply Forall_forall. intros z Hz.
        apply insert_key_In in Hz as [-> | Hz].
        -- apply str_lt_total; assumption.
        -- rewrite Forall_forall in Hy. auto.
Qed.

Lemma group_keys_sorted rs : StronglySorted str_lt (group_keys rs).
Proof.
  induction rs as [| [c v] rs IH]; simpl; [constructor |].
  destruct c; simpl; [apply insert_key_sorted |]; assumption.
Qed.

Lemma group_keys_In rs k :
  In k (group_keys rs) <-> exists v, In (Some k, v) rs.
Proof.
  induction rs as [| [c v] rs IH]; simpl.
  - split; [tauto | intros [? []]].
  - destruct c as [c |]; simpl.
    + rewrite insert_key_In, IH. split.
      * intros [-> | [w Hw]]; eauto.
      * intros [w [Hw | Hw]]; [inversion Hw; auto | eauto].
    + rewrite IH. split.
      * intros [w Hw]; eauto.
      * intros [w [Hw | Hw]]; [discriminate | eauto].
Qed.

Lemma sorted_unique (l l' : list string) :
  StronglySorted str_lt l -> StronglySorted str_lt l' ->
  (forall x, In x l <-> In x l') -> l = l'.
Proof.
  intros Hl. revert l'. induction Hl as [| a l Hs IH Ha]; intros l' Hl' Hin.
  - destruct l' as [| b l']; [reflexivity |].
    exfalso. apply (Hin b). left. reflexivity.
  - destruct Hl' as [| b l' Hs' Hb].
    + exfalso. apply (Hin a). left. reflexivity.
    + rewrite Forall_forall in Ha, Hb.
      assert (a = b).
      { destruct (proj1 (Hin a) (or_introl eq_refl)) as [E | Ia]; [auto |].
        destruct (proj2 (Hin b) (or_introl eq_refl)) as [E | Ib]; [auto |].
        exfalso. apply (@str_lt_irrefl a).
        eapply str_lt_trans; [apply Ha, Ib | apply Hb, Ia]. }
      subst b. f_equal. apply IH; [assumption |].
      intros x. split; intros Hx.
      * destruct (proj1 (Hin x) (or_intror Hx)) as [E | ?]; [| assumption].
        subst x. exfalso. apply (@str_lt_irrefl a). apply Ha, Hx.
      * destruct (proj2 (Hin x) (or_intror Hx)) as [E | ?]; [| assumption].
        subst x. exfalso. apply (@str_lt_irrefl a). apply Hb, Hx.
Qed.

Lemma group_keys_Permutation rs rs' :
  Permutation rs rs' -> group_keys rs = group_keys rs'.
Proof.
  intros HP. apply sorted_unique; try apply group_keys_sorted.
  intros k. rewrite !group_keys_In. split; intros [v Hv]; exists v.
  - eapply Permutation_in; eauto.
  - eapply Permutation_in; [apply Permutation_sym |]; eauto.
Qed.

Lemma sorted_NoDup l : StronglySorted str_lt l -> NoDup l.
Proof.
  induction 1 as [| a l Hs IH Ha]; constructor; [| assumption].
  intros Hin. rewrite Forall_forall in Ha.
  apply (@str_lt_irrefl a). auto.
Qed.


(** *** The aggregation, step by step *)

Lemma cell_eqb_eq a b : cell_eqb a b = true <-> a = b.
Proof.
  destruct a as [a |], b as [b |]; simpl; try (split; congruence).
  rewrite String.eqb_eq. split; congruence.
Qed.

Lemma cell_eqb_refl a : cell_eqb a a = true.
Proof. apply cell_eqb_eq. reflexivity. Qed.

#[local] Hint Resolve cell_eqb_refl : frames.

Lemma cell_eqb_neq a b : cell_eqb a b = false <-> a <> b.
Proof.
  rewrite <- cell_eqb_eq. destruct (cell_eqb a b); split; congruence.
Qed.

Lemma layout_ok_iff u :
  layout_ok u <->
  (2 <= length (columns u))%nat /\
  (exists c, course_cell (columns u) = Some c) /\
  course_cell (columns u) <> status_cell (length (columns u)) (columns u).
Proof.
  unfold layout_ok, layout_okb.
  rewrite !andb_true_iff, negb_true_iff, cell_eqb_neq, Nat.leb_le.
  destruct (course_cell (columns u)) as [c |].
  - split; [intros [[? _] ?] | intros (? & _ & ?)]; eauto.
  - split; [intros [[_ ?] _] | intros (_ & [c ?] & _)]; discriminate.
Qed.

Lemma group_values_rows u k :
  group_values k (records_of u) = map (mapped_status u) (group_rows u k).
Proof.
  unfold group_values, records_of, group_rows.
  induction (data u) as [| r rs IH]; simpl; [reflexivity |].
  unfold in_group at 1. simpl fst.
  destruct (course_cell r) as [c |]; simpl.
  - destruct (String.eqb c k); simpl; [f_equal |]; exact IH.
  - exact IH.
Qed.

Lemma records_keys u k :
  In k (group_keys (records_of u)) <->
  exists r, In r (data u) /\ course_cell r = Some k.
Proof.
  rewrite group_keys_In. unfold records_of. split.
  - intros [v Hv]. apply in_map_iff in Hv as (r & E & Hr).
    inversion E. eauto.
  - intros (r & Hr & E). exists (mapped_status u r).
    apply in_map_iff. exists r. rewrite E. auto.
Qed.

Lemma select_columns_ok u sel :
  select_columns u = Ok sel ->
  (2 <= length (columns u))%nat /\
  sel = mkSel (course_cell (columns u))
              (status_cell (length (columns u)) (columns u))
              (records_of u).
Proof.
  unfold select_columns.
  destruct (Nat.ltb_spec (length (columns u)) 2); intros E; inversion E.
  split; [lia | reflexivity].
Qed.

Lemma groupby_agg_ok s grouped :
  groupby_agg s = Ok grouped ->
  (exists c, course_label s = Some c) /\
  course_label s <> status_label s /\
  mapM (group_of (records s)) (group_keys (records s)) = Ok grouped.
Proof.
  unfold groupby_agg. destruct (course_label s) as [c |] eqn:Ec; [| discriminate].
  destruct (cell_eqb (Some c) (status_label s)) eqn:E; [discriminate |].
  apply cell_eqb_neq in E. intros H. eauto.
Qed.

Lemma ints_as_list nn :
  forallb is_int nn = true ->
  exists zs, nn = map PInt zs /\ int_total nn = fold_right Z.add 0 zs.
Proof.
  induction nn as [| v nn IH]; simpl; intros H.
  - exists []. auto.
  - apply andb_true_iff in H as [Hv Hnn]. destruct v; try discriminate.
    destruct (IH Hnn) as (zs & -> & E). exists (n :: zs). simpl.
    rewrite E. auto.
Qed.

(** What a successful aggregation has computed. *)
Lemma aggregate_inv u stats :
  aggregate u = Ok stats ->
  layout_ok u /\
  map courseName stats = group_keys (records_of u) /\
  Forall (fun st =>
    let vals := group_values (courseName st) (records_of u) in
    forallb is_int (filter notnull vals) = true /\
    presentCount st = int_total (filter notnull vals) /\
    lectureCount st = group_count vals /\
    exists q, Float64.int_truediv (presentCount st) (lectureCount st) = Ok q /\
              percentage st = Float64.fmul q (Float64.of_int 100)) stats.
Proof.
  unfold aggregate. intros H.
  bind_ok H sel Es.
  apply select_columns_ok in Es as [Hn ->].
  bind_ok H grouped Eg.
  apply groupby_agg_ok in Eg as (Hc & Hne & Hg). simpl in Hc, Hne, Hg.
  split; [apply layout_ok_iff; split; [assumption | split; assumption] |].
  apply mapM_ok_Forall2 in Hg. apply mapM_ok_Forall2 in H.
  revert stats H. induction Hg as [| k g ks gs Hkg _ IH]; intros stats H.
  - inversion H. split; constructor.
  - inversion H as [| g' st gs' sts Hst Hrest]; subst.
    destruct (IH _ Hrest) as [IHk IHs]. clear IH.
    unfold group_of in Hkg.
    bind_ok Hkg total Esum.
    inversion Hkg; subst g. clear Hkg.
    unfold add_percentage in Hst. simpl in Hst.
    destruct total as [| s | z]; try discriminate.
    bind_ok Hst q Ediv.
    inversion Hst; subst st. simpl.
    split; [f_equal; assumption |].
    constructor; [| assumption]. simpl.
    destruct (group_sum_cases (group_values k (records_of u)))
      as [[Hi Hs] | [(Hi & Hs & s & Hsum) | (Hi & Hs & Hsum)]];
      rewrite Esum in *; try discriminate.
    inversion Hs. split; [assumption |]. split; [reflexivity |].
    split; [reflexivity |]. exists q. rewrite <- H1. auto.
Qed.


(** *** Tables over the vocabulary P, A *)

Lemma PA_group_values u k :
  status_PA u -> Forall bit (group_values k (records_of u)).
Proof.
  intros H. rewrite group_values_rows. apply Forall_forall.
  intros v Hv. apply in_map_iff in Hv as (r & <- & Hr).
  apply filter_In in Hr as [Hr _].
  unfold status_PA in H. rewrite forallb_forall in H.
  specialize (H r Hr). unfold is_PA in H.
  apply orb_true_iff in H. rewrite !cell_eqb_eq in H.
  unfold mapped_status, bit. destruct H as [-> | ->]; simpl; auto.
Qed.

Lemma bits_facts vals :
  Forall bit vals ->
  filter notnull vals = vals /\ forallb is_int vals = true /\
  0 <= int_total vals <= Z.of_nat (length vals).
Proof.
  induction 1 as [| v vals [-> | ->] _ (IH1 & IH2 & IH3)];
    cbn [filter notnull forallb is_int int_total length andb];
    rewrite ?IH1, ?IH2, ?Nat2Z.inj_succ; repeat split; try reflexivity; lia.
Qed.

Lemma key_group_nonempty u k :
  In k (group_keys (records_of u)) -> group_rows u k <> [].
Proof.
  intros H. apply records_keys in H as (r & Hr & E).
  assert (In r (group_rows u k)).
  { apply filter_In. split; [assumption |]. rewrite E. auto with frames. }
  intros E0. rewrite E0 in H. contradiction.
Qed.

Lemma mapM_total {A B} (f : A -> result B) l :
  (forall a, In a l -> exists b, f a = Ok b) -> exists bs, mapM f l = Ok bs.
Proof.
  induction l as [| a l IH]; simpl; intros H; [eauto |].
  destruct (H a (or_introl eq_refl)) as [b ->].
  destruct IH as [bs ->]; [auto |]. simpl. eauto.
Qed.

Lemma Forall2_In_r {A B} (R : A -> B -> Prop) l l' b :
  Forall2 R l l' -> In b l' -> exists a, In a l /\ R a b.
Proof.
  induction 1 as [| x y l l' Hxy _ IH]; simpl; [tauto |].
  intros [<- | Hb]; [eauto |]. destruct (IH Hb) as (a & ? & ?). eauto.
Qed.

(** With the expected layout the aggregation is the sums and counts of
    the groups followed by the percentages. *)
Lemma aggregate_layout u :
  layout_ok u ->
  aggregate u =
  (grouped <- mapM (group_of (records_of u)) (group_keys (records_of u)) ;;
   mapM add_percentage grouped).
Proof.
  intros HL. apply layout_ok_iff in HL as (Hn & [c Hc] & Hne).
  unfold aggregate, select_columns.
  destruct (Nat.ltb_spec (length (columns u)) 2); [lia |].
  cbn [bind]. unfold groupby_agg. cbn [course_label status_label records].
  rewrite Hc. rewrite <- Hc.
  replace (cell_eqb _ _) with false by (symmetry; apply cell_eqb_neq; exact Hne).
  reflexivity.
Qed.

(** Without it the aggregation raises. *)
Lemma aggregate_bad_layout u :
  ~ layout_ok u -> exists e, aggregate u = Raise e.
Proof.
  intros H. destruct (aggregate u) as [stats | e] eqn:E; [| eauto].
  apply aggregate_inv in E. tauto.
Qed.

(** On a table over P and A with the expected layout the aggregation
    returns. *)
Lemma aggregate_PA_returns u :
  layout_ok u -> status_PA u -> exists stats, aggregate u = Ok stats.
Proof.
  intros HL HPA. rewrite (aggregate_layout u HL).
  destruct (mapM_total (group_of (records_of u))
              (group_keys (records_of u))) as [gs Hgs].
  { intros k _. unfold group_of.
    destruct (bits_facts _ (PA_group_values u k HPA)) as (E1 & E2 & _).
    destruct (group_sum_cases (group_values k (records_of u)))
      as [[_ ->] | [(Hi & _) | (Hi & _)]];
      [simpl; eauto | rewrite E1 in Hi; congruence ..]. }
  rewrite Hgs. simpl. apply mapM_total. intros g Hg.
  apply mapM_ok_Forall2 in Hgs.
  destruct (Forall2_In_r _ _ _ _ Hgs Hg) as (k & Hk & Ek).
  unfold group_of in Ek.
  destruct (bits_facts _ (PA_group_values u k HPA)) as (E1 & E2 & E3).
  destruct (group_sum_cases (group_values k (records_of u)))
    as [[_ Hs] | [(Hi & _) | (Hi & _)]];
    [| rewrite E1 in Hi; congruence ..].
  rewrite Hs in Ek. simpl in Ek. inversion Ek; subst g. clear Ek.
  unfold add_percentage. simpl. rewrite E1.
  assert (Hlen : 0 < group_count (group_values k (records_of u))).
  { unfold group_count. rewrite E1, group_values_rows, length_map.
    pose proof (key_group_nonempty _ _ Hk).
    destruct (group_rows u k); [contradiction | simpl; lia]. }
  destruct (percentage_bound (int_total (group_values k (records_of u)))
              (group_count (group_values k (records_of u))))
    as (q & m & e & Hq & _); [| assumption |].
  - unfold group_count. rewrite E1. exact E3.
  - rewrite Hq. simpl. eauto.
Qed.


(** *** Row order *)

Lemma group_values_Permutation k rs rs' :
  Permutation rs rs' ->
  Permutation (group_values k rs) (group_values k rs').
Proof.
  intros H. unfold group_values.
  apply Permutation_map, filter_Permutation, H.
Qed.

Lemma group_of_Permutation rs rs' k :
  Permutation rs rs' -> same_result (group_of rs k) (group_of rs' k).
Proof.
  intros HP. apply (group_values_Permutation k) in HP.
  pose proof (filter_Permutation notnull _ _ HP) as HPn.
  unfold group_of, group_count.
  rewrite (Permutation_length HPn).
  pose proof (forallb_Permutation is_int _ _ HPn) as Ei.
  pose proof (forallb_Permutation is_str _ _ HPn) as Es.
  pose proof (int_total_Permutation _ _ HPn) as Et.
  destruct (group_sum_cases (group_values k rs))
    as [[Hi ->] | [(Hi & Hs & s & ->) | (Hi & Hs & ->)]];
  destruct (group_sum_cases (group_values k rs'))
    as [[Hi' ->] | [(Hi' & Hs' & s' & ->) | (Hi' & Hs' & ->)]];
  try congruence; simpl.
  - left. rewrite Et. reflexivity.
  - right. simpl. eauto.
Qed.

Lemma add_percentage_same g g' :
  same_outcome g g' -> add_percentage g = add_percentage g'.
Proof.
  intros [-> | (s & s' & E & E')]; [reflexivity |].
  unfold add_percentage. rewrite E, E'. reflexivity.
Qed.

Lemma percentages_same (f f' : string -> result Grouped) ks :
  (forall k, same_result (f k) (f' k)) ->
  (grouped <- mapM f ks ;; mapM add_percentage grouped) =
  (grouped <- mapM f' ks ;; mapM add_percentage grouped).
Proof.
  intros Hf.
  assert (H : match mapM f ks, mapM f' ks with
              | Ok gs, Ok gs' => Forall2 same_outcome gs gs'
              | Raise e, Raise e' => e = e'
              | _, _ => False
              end).
  { induction ks as [| k ks IH]; simpl; [constructor |].
    specialize (Hf k). unfold same_result in Hf.
    destruct (f k) as [g | e], (f' k) as [g' | e']; simpl; try contradiction;
      [| assumption].
    destruct (mapM f ks) as [gs | e], (mapM f' ks) as [gs' | e']; simpl;
      try contradiction; [constructor |]; assumption. }
  destruct (mapM f ks) as [gs | e], (mapM f' ks) as [gs' | e']; simpl;
    try contradiction; [| congruence].
  induction H as [| g g' gs gs' Hg _ IH]; simpl; [reflexivity |].
  rewrite (add_percentage_same _ _ Hg), IH. reflexivity.
Qed.

Lemma records_of_Permutation u u' :
  columns u = columns u' -> Permutation (data u) (data u') ->
  Permutation (records_of u) (records_of u').
Proof.
  intros Hc HP. unfold records_of, mapped_status. rewrite Hc.
  apply Permutation_map, HP.
Qed.

(** Claim C7.  Reordering the rows of a unified table, in particular
    reordering them inside a course group, changes nothing of what the
    aggregation gives: the same courses with the same present count,
    lecture count and percentage, or the same exception. *)
Theorem aggregate_row_order u u' :
  columns u = columns u' ->
  Permutation (data u) (data u') ->
  aggregate u = aggregate u'.
Proof.
  intros Hc HP.
  assert (HL : layout_okb u = layout_okb u')
    by (unfold layout_okb; rewrite Hc; reflexivity).
  destruct (layout_okb u) eqn:E.
  - rewrite (aggregate_layout u E), (aggregate_layout u' (eq_sym HL)).
    pose proof (records_of_Permutation _ _ Hc HP) as HR.
    rewrite <- (group_keys_Permutation _ _ HR).
    apply percentages_same. intros k. apply group_of_Permutation, HR.
  - unfold aggregate, select_columns, groupby_agg. rewrite <- Hc.
    unfold layout_okb in E.
    destruct (Nat.ltb_spec (length (columns u)) 2) as [Hlt | Hge];
      [reflexivity |].
    cbn [bind course_label status_label records].
    replace (2 <=? length (columns u))%nat with true in E
      by (symmetry; apply Nat.leb_le; assumption).
    destruct (course_cell (columns u)) as [c |]; [| reflexivity].
    rewrite !andb_true_l in E. apply negb_false_iff in E.
    rewrite E. reflexivity.
Qed.

Lemma aggregate_row_order_witness :
  columns table_three_courses = columns table_three_courses_swapped /\
  Permutation (data table_three_courses) (data table_three_courses_swapped) /\
  aggregate table_three_courses = aggregate table_three_courses_swapped.
Proof.
  assert (Hc : columns table_three_courses
               = columns table_three_courses_swapped) by reflexivity.
  assert (Hp : Permutation (data table_three_courses)
                           (data table_three_courses_swapped))
    by apply perm_swap.
  split; [exact Hc | split; [exact Hp |]].
  exact (aggregate_row_order table_three_courses
           table_three_courses_swapped Hc Hp).
Defined.


(* ================================================================= *)
(** ** Facts on the merge *)

(** *** Labels without repetition *)

Lemma existsb_cell_In k l : existsb (cell_eqb k) l = true <-> In k l.
Proof.
  rewrite existsb_exists. split.
  - intros (x & Hx & E). apply cell_eqb_eq in E. subst. assumption.
  - intros H. exists k. split; [assumption | apply cell_eqb_refl].
Qed.

Lemma existsb_cell_notin k l : existsb (cell_eqb k) l = false <-> ~ In k l.
Proof.
  rewrite <- existsb_cell_In. destruct (existsb _ l); split; congruence.
Qed.

Lemma nodupb_NoDup l : nodupb l = true <-> NoDup l.
Proof.
  induction l as [| c l IH]; simpl.
  - split; [constructor | reflexivity].
  - rewrite andb_true_iff, negb_true_iff, existsb_cell_notin, IH.
    split; [intros [? ?]; constructor; assumption |].
    intros H. inversion H. auto.
Qed.

Lemma labels_eqb_refl l : labels_eqb l l = true.
Proof.
  unfold labels_eqb. rewrite Nat.eqb_refl. simpl.
  induction l as [| c l IH]; simpl; [reflexivity |].
  rewrite cell_eqb_refl. exact IH.
Qed.

#[local] Hint Resolve labels_eqb_refl : frames.

Lemma locate_from_notin b k l : ~ In k l -> locate_from b k l = [].
Proof.
  revert b. induction l as [| c l IH]; simpl; intros b H; [reflexivity |].
  destruct (cell_eqb k c) eqn:E.
  - apply cell_eqb_eq in E. subst. tauto.
  - apply IH. tauto.
Qed.

Lemma locate_from_unique pre k suf : forall b,
  NoDup (pre ++ k :: suf) ->
  locate_from b k (pre ++ k :: suf) = [(b + length pre)%nat].
Proof.
  induction pre as [| c pre IH]; simpl; intros b H.
  - rewrite cell_eqb_refl. inversion H; subst.
    rewrite locate_from_notin by assumption. f_equal. lia.
  - inversion H; subst.
    destruct (cell_eqb k c) eqn:E.
    + apply cell_eqb_eq in E. subst. exfalso. apply H2.
      apply in_or_app. right. left. reflexivity.
    + rewrite IH by assumption. f_equal. lia.
Qed.

Lemma index_of_notin k l : ~ In k l -> index_of k l = None.
Proof.
  induction l as [| c l IH]; simpl; intros H; [reflexivity |].
  destruct (cell_eqb k c) eqn:E.
  - apply cell_eqb_eq in E. subst. tauto.
  - rewrite IH by tauto. reflexivity.
Qed.

Lemma index_of_unique pre k suf :
  NoDup (pre ++ k :: suf) ->
  index_of k (pre ++ k :: suf) = Some (length pre).
Proof.
  induction pre as [| c pre IH]; simpl; intros H.
  - rewrite cell_eqb_refl. reflexivity.
  - inversion H; subst.
    destruct (cell_eqb k c) eqn:E.
    + apply cell_eqb_eq in E. subst. exfalso. apply H2.
      apply in_or_app. right. left. reflexivity.
    + rewrite IH by assumption. reflexivity.
Qed.

(** Selecting a tail of the labels of a frame, label by label, selects the
    positions of that tail. *)
Lemma locate_suffix pre suf :
  NoDup (pre ++ suf) ->
  mapM (fun k => match locate k (pre ++ suf) with
                 | [] => Raise KeyError
                 | ps => Ok ps
                 end) suf
  = Ok (map (fun i => [i]) (seq (length pre) (length suf))).
Proof.
  revert pre. induction suf as [| k suf IH]; intros pre H; [reflexivity |].
  cbn [mapM]. unfold locate at 1.
  rewrite (locate_from_unique pre k suf 0 H). cbn [bind].
  replace (pre ++ k :: suf) with ((pre ++ [k]) ++ suf) in *
    by (rewrite <- app_assoc; reflexivity).
  rewrite (IH _ H). rewrite length_app. simpl.
  replace (length pre + 1)%nat with (S (length pre)) by lia.
  reflexivity.
Qed.

Lemma concat_singletons (l : list nat) : concat (map (fun i => [i]) l) = l.
Proof. induction l; simpl; congruence. Qed.

Lemma nth_seq_skipn (r : list cell) : forall b,
  map (fun i => nth i r None) (seq b (length r - b)) = skipn b r.
Proof.
  induction r as [| c r IH]; intros b.
  - simpl. destruct b; reflexivity.
  - destruct b as [| b].
    + simpl. f_equal. rewrite <- seq_shift, map_map. simpl.
      specialize (IH 0%nat). rewrite Nat.sub_0_r in IH. exact IH.
    + simpl. rewrite <- seq_shift, map_map. simpl. apply IH.
Qed.

(** Realigning a row of a frame on the frame's own labels. *)
Lemma reindex_suffix (pre suf rpre rsuf : list cell) :
  NoDup (pre ++ suf) ->
  length pre = length rpre -> length suf = length rsuf ->
  map (fun l => match index_of l (pre ++ suf) with
                | Some j => nth j (rpre ++ rsuf) None
                | None => None
                end) suf = rsuf.
Proof.
  revert pre rpre rsuf. induction suf as [| k suf IH];
    intros pre rpre rsuf H Hp Hs.
  - destruct rsuf; [reflexivity | discriminate].
  - destruct rsuf as [| c rsuf]; [discriminate |]. simpl.
    rewrite (index_of_unique pre k suf H).
    rewrite app_nth2 by lia. rewrite Hp, Nat.sub_diag. simpl. f_equal.
    replace (pre ++ k :: suf) with ((pre ++ [k]) ++ suf) in *
      by (rewrite <- app_assoc; reflexivity).
    replace (rpre ++ c :: rsuf) with ((rpre ++ [c]) ++ rsuf)
      by (rewrite <- app_assoc; reflexivity).
    apply IH; [assumption | rewrite !length_app; simpl; lia |].
    simpl in Hs. lia.
Qed.

Lemma reindex_row_same h r :
  NoDup h -> length r = length h -> reindex_row h h r = r.
Proof.
  intros H Hl. unfold reindex_row.
  apply (reindex_suffix [] h [] r); auto.
Qed.

Lemma union_labels_acc l : forall acc,
  NoDup (acc ++ l) ->
  fold_left (fun acc l => if existsb (cell_eqb l) acc then acc
                          else acc ++ [l]) l acc = acc ++ l.
Proof.
  induction l as [| c l IH]; intros acc H; simpl.
  - rewrite app_nil_r. reflexivity.
  - replace (existsb (cell_eqb c) acc) with false.
    + replace (acc ++ c :: l) with ((acc ++ [c]) ++ l) in *
        by (rewrite <- app_assoc; reflexivity).
      apply IH. assumption.
    + symmetry. apply existsb_cell_notin. intros Hin.
      apply NoDup_remove_2 in H. apply H. apply in_or_app. left. assumption.
Qed.

Lemma union_labels_known l : forall acc,
  incl l acc ->
  fold_left (fun acc l => if existsb (cell_eqb l) acc then acc
                          else acc ++ [l]) l acc = acc.
Proof.
  induction l as [| c l IH]; intros acc H; simpl; [reflexivity |].
  replace (existsb (cell_eqb c) acc) with true.
  - apply IH. intros x Hx. apply H. right. assumption.
  - symmetry. apply existsb_cell_In. apply H. left. reflexivity.
Qed.

(** *** Frames of padded rows *)

Lemma length_le_width t r : In r t -> (length r <= width t)%nat.
Proof.
  induction t as [| r' t IH]; simpl; [tauto |].
  intros [-> | H]; [lia |]. specialize (IH H). lia.
Qed.

Lemma frame_rows_length t r :
  In r (frame_rows t) -> length r = width t.
Proof.
  unfold frame_rows. intros H. apply in_map_iff in H as (r0 & <- & H0).
  unfold pad. rewrite length_app, repeat_length.
  pose proof (length_le_width t r0 H0). lia.
Qed.


(** *** Merging tables that repeat one header *)

Lemma promote_header_ok t h :
  header_row t = Some h -> promote_header t = Ok (mkDF h (data_rows t)).
Proof.
  unfold header_row, promote_header, data_rows.
  destruct (frame_rows t); simpl; [discriminate |].
  intros E. inversion E. reflexivity.
Qed.

Lemma data_rows_length t h :
  header_row t = Some h ->
  Forall (fun r => length r = length h) (data_rows t).
Proof.
  unfold header_row, data_rows. intros E. apply Forall_forall. intros r Hr.
  destruct (frame_rows t) as [| h' body] eqn:Ef; [discriminate |].
  inversion E; subst h'. simpl in Hr.
  rewrite (frame_rows_length t r), (frame_rows_length t h);
    rewrite ?Ef; simpl; auto.
Qed.

Lemma filter_label_ne_none h : filter (fun l => label_ne l None) h = h.
Proof.
  induction h as [| c h IH]; simpl; [reflexivity |].
  destruct c; simpl; rewrite IH; reflexivity.
Qed.

Lemma filter_label_ne_some s hrest :
  ~ In (Some s) hrest ->
  filter (fun l => label_ne l (Some s)) hrest = hrest.
Proof.
  induction hrest as [| c h IH]; simpl; intros H; [reflexivity |].
  replace (label_ne c (Some s)) with true; [rewrite IH; tauto |].
  destruct c as [c |]; [| reflexivity]. simpl.
  destruct (String.eqb_spec c s); [subst; tauto | reflexivity].
Qed.

Lemma getitem_suffix pre suf body :
  NoDup (pre ++ suf) ->
  Forall (fun r => length r = length (pre ++ suf)) body ->
  getitem_labels suf (mkDF (pre ++ suf) body)
  = Ok (mkDF suf (map (skipn (length pre)) body)).
Proof.
  intros H Hb. unfold getitem_labels. cbn [columns data].
  rewrite (locate_suffix pre suf H). cbn [bind].
  rewrite concat_singletons. f_equal.
  assert (El : length suf = (length (pre ++ suf) - length pre)%nat)
    by (rewrite length_app; lia).
  f_equal.
  - rewrite El, nth_seq_skipn.
    rewrite skipn_app, skipn_all, Nat.sub_diag. reflexivity.
  - apply map_ext_in. intros r Hr. rewrite Forall_forall in Hb.
    rewrite El, <- (Hb r Hr). apply nth_seq_skipn.
Qed.

Lemma loop_body_later h acc t :
  h <> [] -> NoDup h -> header_row t = Some h ->
  loop_body (mkLoop (Some h) acc) t
  = Ok (mkLoop (Some h) (acc ++ [later_frame h t])).
Proof.
  intros Hne Hnd Ht. unfold loop_body.
  rewrite (promote_header_ok t h Ht). cbn [bind headers tables columns].
  pose proof (data_rows_length t h Ht) as Hlen.
  destruct h as [| h0 hrest]; [contradiction |].
  destruct h0 as [s |].
  - cbn [filter]. replace (label_ne (Some s) (Some s)) with false
      by (simpl; rewrite String.eqb_refl; reflexivity).
    inversion Hnd; subst.
    rewrite filter_label_ne_some by assumption.
    pose proof (getitem_suffix [Some s] hrest (data_rows t) Hnd Hlen) as G.
    cbn [app length] in G. rewrite G. reflexivity.
  - rewrite filter_label_ne_none.
    pose proof (getitem_suffix (@nil cell) (@cons cell None hrest)
                  (data_rows t) Hnd Hlen) as G.
    cbn [app length skipn] in G. rewrite map_id in G. rewrite G.
    reflexivity.
Qed.

Lemma loop_later h ts : forall acc,
  h <> [] -> NoDup h -> Forall (fun t => header_row t = Some h) ts ->
  foldM loop_body (mkLoop (Some h) acc) ts
  = Ok (mkLoop (Some h) (acc ++ map (later_frame h) ts)).
Proof.
  induction ts as [| t ts IH]; intros acc Hne Hnd Hts; simpl.
  - rewrite app_nil_r. reflexivity.
  - inversion Hts; subst.
    rewrite (loop_body_later h acc t Hne Hnd H1). cbn [bind].
    rewrite IH by assumption. rewrite <- app_assoc. reflexivity.
Qed.

Lemma loop_same_header h t ts :
  h <> [] -> NoDup h -> Forall (fun t => header_row t = Some h) (t :: ts) ->
  foldM loop_body loop_init (t :: ts)
  = Ok (mkLoop (Some h) (mkDF h (data_rows t) :: map (later_frame h) ts)).
Proof.
  intros Hne Hnd H. inversion H; subst. cbn [foldM].
  unfold loop_body at 1. rewrite (promote_header_ok t h H2).
  cbn [bind loop_init headers tables columns app].
  apply (loop_later h ts [mkDF h (data_rows t)]); assumption.
Qed.

Lemma reindex_row_blank s hrest r :
  NoDup (Some s :: hrest) -> length r = length hrest ->
  reindex_row hrest (Some s :: hrest) r = None :: r.
Proof.
  intros H Hl. inversion H; subst. unfold reindex_row. cbn [map].
  rewrite index_of_notin by assumption. f_equal.
  apply (reindex_row_same hrest r); assumption.
Qed.

Lemma union_labels_first h ls :
  NoDup h -> (forall l, In l ls -> incl l h) -> union_labels (h :: ls) = h.
Proof.
  intros Hnd Hin. unfold union_labels. cbn [concat].
  rewrite fold_left_app.
  rewrite (union_labels_acc h []) by assumption. cbn [app].
  apply union_labels_known. intros x Hx.
  apply in_concat in Hx as (l & Hl & Hx). exact (Hin l Hl x Hx).
Qed.

Lemma flat_map_later_some s hrest ts :
  NoDup (Some s :: hrest) ->
  Forall (fun t => header_row t = Some (Some s :: hrest)) ts ->
  flat_map (fun d => map (reindex_row (columns d) (Some s :: hrest)) (data d))
           (map (later_frame (Some s :: hrest)) ts)
  = flat_map (fun t' => map (blank_first (Some s :: hrest)) (data_rows t')) ts.
Proof.
  intros Hnd Hl. induction ts as [| t' l IH]; [reflexivity |].
  inversion Hl; subst. cbn [map flat_map]. f_equal; [| auto].
  cbn [later_frame data columns blank_first]. rewrite map_map.
  apply map_ext_in. intros r Hr.
  apply reindex_row_blank; [assumption |].
  pose proof (data_rows_length t' _ H1) as Hl'.
  rewrite Forall_forall in Hl'. specialize (Hl' r Hr).
  destruct r; simpl in *; [discriminate | now injection Hl'].
Qed.

Lemma flat_map_data_later_none hrest ts :
  flat_map data (map (later_frame (None :: hrest)) ts)
  = flat_map (fun t => map (blank_first (None :: hrest)) (data_rows t)) ts.
Proof.
  induction ts as [| t ts IH]; simpl; [reflexivity |].
  rewrite IH, map_id. reflexivity.
Qed.

Lemma pd_concat_same_header h t ts :
  h <> [] -> NoDup h -> Forall (fun t => header_row t = Some h) (t :: ts) ->
  pd_concat (mkDF h (data_rows t) :: map (later_frame h) ts)
  = Ok (mkDF h (data_rows t ++
                flat_map (fun t' => map (blank_first h) (data_rows t')) ts)).
Proof.
  intros Hne Hnd H. inversion H as [| ? ? Ht Hts]; subst.
  destruct h as [| h0 hrest]; [contradiction |].
  destruct h0 as [s |].
  - (* the first label is a string: later frames lack its column *)
    destruct ts as [| t1 ts1].
    + unfold pd_concat. cbn [map forallb columns].
      rewrite labels_eqb_refl. reflexivity.
    + unfold pd_concat.
      replace (forallb _ _) with false.
      2:{ symmetry. cbn [map forallb columns later_frame].
          rewrite labels_eqb_refl. cbn [andb].
          unfold labels_eqb at 1. simpl length.
          replace (length hrest =? S (length hrest))%nat with false
            by (symmetry; apply Nat.eqb_neq; lia).
          reflexivity. }
      set (dfs := _ :: map (later_frame _) (t1 :: ts1)).
      assert (Hnd' : NoDup hrest) by (inversion Hnd; assumption).
      replace (forallb (fun d => nodupb (columns d)) dfs) with true.
      2:{ symmetry. apply forallb_forall. intros d [<- | Hd].
          - apply nodupb_NoDup. assumption.
          - apply in_map_iff in Hd as (t' & <- & _).
            apply nodupb_NoDup. assumption. }
      assert (Hu : union_labels (map columns dfs) = Some s :: hrest).
      { unfold dfs. cbn [map columns].
        apply union_labels_first; [assumption |].
        intros l Hl x Hx. right. rewrite map_map in Hl.
        destruct Hl as [<- | Hl]; [exact Hx |].
        apply in_map_iff in Hl as (t' & <- & _). exact Hx. }
      cbv zeta. rewrite Hu. f_equal. f_equal. unfold dfs.
      change (flat_map ?F (?d :: ?l)) with (F d ++ flat_map F l).
      f_equal; [| apply flat_map_later_some; assumption].
      transitivity (map (fun r : list cell => r) (data_rows t));
        [apply map_ext_in | apply map_id].
      intros r Hr. cbn [columns data] in *.
      apply reindex_row_same; [assumption |].
      pose proof (data_rows_length t _ Ht) as Hl.
      rewrite Forall_forall in Hl. auto.
  - (* the first label is null: nothing is dropped *)
    unfold pd_concat. replace (forallb _ _) with true.
    + cbn [columns flat_map data]. rewrite flat_map_data_later_none.
      reflexivity.
    + symmetry. apply forallb_forall. intros d [<- | Hd].
      * auto with frames.
      * apply in_map_iff in Hd as (t' & <- & _). auto with frames.
Qed.

Lemma data_rows_count t h :
  header_row t = Some h -> length (data_rows t) = (length t - 1)%nat.
Proof.
  intros _. unfold data_rows, frame_rows.
  destruct t; simpl; [reflexivity |]. rewrite length_map. lia.
Qed.





(* ================================================================= *)
(** ** The claims *)

Lemma stats_in_keys u stats st :
  aggregate u = Ok stats -> In st stats ->
  In (courseName st) (group_keys (records_of u)).
Proof.
  intros H Hst. apply aggregate_inv in H as (_ & <- & _).
  apply in_map. assumption.
Qed.

(** *** Aggregation *)

(** Claim C1, amended.  When the aggregation returns, it has taken the
    second column as course name and the last column as status: there is
    one CourseStats for each distinct course name that is not null; for
    each of them the mapped statuses of the rows of the course that are not
    null are integers, presentCount is their sum, lectureCount is their
    number, and percentage is [(presentCount / lectureCount) * 100] in
    binary64 arithmetic. *)
Theorem aggregate_groups u stats :
  aggregate u = Ok stats ->
  NoDup (map courseName stats) /\
  (forall name, In name (map courseName stats) <->
                exists r, In r (data u) /\ course_cell r = Some name) /\
  Forall (fun st =>
    exists zs,
      filter notnull (map (mapped_status u) (group_rows u (courseName st)))
      = map PInt zs /\
      presentCount st = fold_right Z.add 0 zs /\
      lectureCount st = Z.of_nat (length zs) /\
      exists q,
        Float64.int_truediv (presentCount st) (lectureCount st) = Ok q /\
        percentage st = Float64.fmul q (Float64.of_int 100)) stats.
Proof.
  intros H. destruct (aggregate_inv _ _ H) as (_ & Hk & Hs).
  split; [rewrite Hk; apply sorted_NoDup, group_keys_sorted |].
  split; [intros name; rewrite Hk; apply records_keys |].
  eapply Forall_impl; [| exact Hs]. cbv beta zeta.
  intros st (Hi & Hp & Hc & Hq). rewrite group_values_rows in *.
  destruct (ints_as_list _ Hi) as (zs & Ez & Et).
  exists zs. split; [assumption |]. split; [congruence |].
  split; [| assumption].
  rewrite Hc. unfold group_count. rewrite Ez, length_map. reflexivity.
Qed.

Lemma aggregate_groups_witness :
  aggregate table_three_courses = Ok stats_three_courses /\
  NoDup (map courseName stats_three_courses) /\
  (forall name, In name (map courseName stats_three_courses) <->
                exists r, In r (data table_three_courses) /\
                          course_cell r = Some name) /\
  Forall (fun st =>
    exists zs,
      filter notnull (map (mapped_status table_three_courses)
                          (group_rows table_three_courses (courseName st)))
      = map PInt zs /\
      presentCount st = fold_right Z.add 0 zs /\
      lectureCount st = Z.of_nat (length zs) /\
      exists q,
        Float64.int_truediv (presentCount st) (lectureCount st) = Ok q /\
        percentage st = Float64.fmul q (Float64.of_int 100))
    stats_three_courses.
Proof.
  assert (H : aggregate table_three_courses = Ok stats_three_courses)
    by reflexivity.
  split; [exact H |].
  exact (aggregate_groups table_three_courses stats_three_courses H).
Defined.

(** A row whose status is null belongs to the group of its course and is
    not counted. *)
Lemma aggregate_skips_null_status :
  aggregate table_null_status = Ok [mkStats "Math" 1 1 hundred] /\
  length (group_rows table_null_status "Math") = 2%nat.
Proof. split; reflexivity. Qed.

(** Claim C6.  On a unified table whose status cells are all ["P"] or
    ["A"], every CourseStats the aggregation returns has
    [presentCount <= lectureCount] and a percentage between 0 and 100; and
    the aggregation does return when the table has the layout of the
    report (at least two columns, the second and the last one with
    distinct labels that are not null). *)
Theorem aggregate_PA_bounds u :
  status_PA u ->
  (expected_layout u -> exists stats, aggregate u = Ok stats) /\
  (forall stats, aggregate u = Ok stats ->
     Forall (fun st =>
       0 <= presentCount st <= lectureCount st /\
       1 <= lectureCount st /\
       Float64.is_finite (percentage st) = true /\
       (0 <= Float64.F2Q (percentage st) <= 100)%Q) stats).
Proof.
  intros HPA. split.
  { intros HL. apply andb_true_iff in HL as [HL _].
    apply aggregate_PA_returns; assumption. }
  intros stats H. apply Forall_forall. intros st Hst.
  pose proof (stats_in_keys _ _ _ H Hst) as Hkey.
  destruct (aggregate_inv _ _ H) as (_ & _ & Hs).
  rewrite Forall_forall in Hs.
  destruct (Hs st Hst) as (_ & Hp & Hc & q & Hq & Hpct).
  destruct (bits_facts _ (PA_group_values u (courseName st) HPA))
    as (E1 & _ & E3).
  rewrite E1 in Hp. unfold group_count in Hc. rewrite E1 in Hc.
  assert (Hlen : 1 <= lectureCount st).
  { rewrite Hc, group_values_rows, length_map.
    pose proof (key_group_nonempty _ _ Hkey).
    destruct (group_rows u (courseName st)); [contradiction | simpl; lia]. }
  destruct (percentage_bound (presentCount st) (lectureCount st))
    as (q' & m & e & Hq' & Hm & He & Hme); [lia | lia |].
  rewrite Hq in Hq'. inversion Hq'; subst q'. rewrite <- Hpct in Hm.
  split; [lia |]. split; [assumption |]. rewrite Hm.
  split; [reflexivity |]. apply (F2Q_bound m e 100); assumption.
Qed.

Lemma aggregate_PA_bounds_witness :
  status_PA table_three_courses /\
  (expected_layout table_three_courses ->
   exists stats, aggregate table_three_courses = Ok stats) /\
  (forall stats, aggregate table_three_courses = Ok stats ->
     Forall (fun st =>
       0 <= presentCount st <= lectureCount st /\
       1 <= lectureCount st /\
       Float64.is_finite (percentage st) = true /\
       (0 <= Float64.F2Q (percentage st) <= 100)%Q) stats).
Proof.
  assert (H : status_PA table_three_courses) by reflexivity.
  split; [exact H |].
  exact (aggregate_PA_bounds table_three_courses H).
Defined.

(** Claim C8, amended.  When a row with a course name carries a status
    string other than ["P"] and ["A"], the aggregation raises an exception
    and returns no statistics. *)
Theorem aggregate_unknown_symbol_raises u r c s :
  In r (data u) ->
  course_cell r = Some c ->
  status_cell (length (columns u)) r = Some s ->
  s <> "P" -> s <> "A" ->
  exists e, aggregate u = Raise e.
Proof.
  intros Hr Hc Hs HP HA.
  destruct (aggregate u) as [stats | e] eqn:E; [exfalso | eauto].
  destruct (aggregate_inv _ _ E) as (_ & Hk & Hst).
  assert (Hin : In c (map courseName stats)).
  { rewrite Hk. apply records_keys. eauto. }
  apply in_map_iff in Hin as (st & Ec & Hin).
  rewrite Forall_forall in Hst. destruct (Hst st Hin) as (Hi & _).
  rewrite forallb_forall in Hi.
  assert (Hv : In (PStr s) (filter notnull
                     (group_values (courseName st) (records_of u)))).
  { apply filter_In. split; [| reflexivity].
    rewrite group_values_rows. apply in_map_iff. exists r. split.
    - unfold mapped_status. rewrite Hs. simpl.
      destruct (String.eqb_spec s "P"); [contradiction |].
      destruct (String.eqb_spec s "A"); [contradiction |]. reflexivity.
    - apply filter_In. split; [assumption |].
      rewrite Hc, Ec. auto with frames. }
  specialize (Hi _ Hv). discriminate.
Qed.

Lemma aggregate_unknown_symbol_raises_witness :
  In [Some "2"; Some "Math"; Some "L"] (data table_unknown_symbol) /\
  exists e, aggregate table_unknown_symbol = Raise e.
Proof.
  assert (H : In [Some "2"; Some "Math"; Some "L"]
                 (data table_unknown_symbol))
    by (right; left; reflexivity).
  split; [exact H |].
  refine (aggregate_unknown_symbol_raises table_unknown_symbol
            [Some "2"; Some "Math"; Some "L"] "Math" "L" H
            eq_refl eq_refl _ _); discriminate.
Defined.

(** A symbol outside the vocabulary on a row without course name is left
    out without any exception. *)
Lemma aggregate_ignores_symbol_without_course :
  In [Some "2"; None; Some "X"] (data table_null_course) /\
  aggregate table_null_course = Ok [mkStats "Math" 1 1 hundred].
Proof. split; [right; left |]; reflexivity. Qed.

(** *** Status mapping *)

(** Claim C2.  The status mapping sends ["P"] to 1 and ["A"] to 0 and
    leaves every other cell, a null one included, as it is. *)
Theorem replace_status_mapping (c : cell) :
  c <> Some "P" -> c <> Some "A" ->
  replace_status (Some "P") = PInt 1 /\
  replace_status (Some "A") = PInt 0 /\
  replace_status c = as_is c.
Proof.
  intros HP HA. split; [reflexivity | split; [reflexivity |]].
  destruct c as [s |]; [| reflexivity]. simpl.
  destruct (String.eqb_spec s "P"); [subst; contradiction |].
  destruct (String.eqb_spec s "A"); [subst; contradiction |].
  reflexivity.
Qed.

Lemma replace_status_mapping_witness :
  Some "L" <> Some "P" /\ Some "L" <> Some "A" /\
  replace_status (Some "P") = PInt 1 /\
  replace_status (Some "A") = PInt 0 /\
  replace_status (Some "L") = as_is (Some "L").
Proof.
  assert (HP : Some "L" <> Some "P") by discriminate.
  assert (HA : Some "L" <> Some "A") by discriminate.
  split; [exact HP | split; [exact HA |]].
  exact (replace_status_mapping (Some "L") HP HA).
Defined.

(** *** No table *)

(** Claim C4.  When no page of the PDF gives a table, the merge raises
    [ValueError("No tables found in the PDF.")]; the pipeline ends with
    that exception, without report and without touching a file. *)
Theorem no_tables_found (TEMP_DIR : string) (pages : list (list RawTable))
  (fs : FS) :
  concat pages = [] ->
  merge (concat pages) = Raise (ValueError "No tables found in the PDF.") /\
  process_pdf TEMP_DIR pages fs
  = (Raise (ValueError "No tables found in the PDF."), fs).
Proof.
  intros E. unfold process_pdf. rewrite E. split; reflexivity.
Qed.

Lemma no_tables_found_witness :
  concat [[]; []] = @nil RawTable /\
  merge (concat [[]; []])
  = Raise (ValueError "No tables found in the PDF.") /\
  process_pdf "/tmp" [[]; []] no_files
  = (Raise (ValueError "No tables found in the PDF."), no_files).
Proof.
  assert (H : concat [[]; []] = @nil RawTable) by reflexivity.
  split; [exact H |].
  exact (no_tables_found "/tmp" [[]; []] no_files H).
Defined.

(** *** Report text *)

Lemma append_assoc (a b c : string) : (a +++ b) +++ c = a +++ b +++ c.
Proof. induction a as [| x a IH]; simpl; [| rewrite IH]; reflexivity. Qed.

Lemma format_block_lines h st : format_block h st = report_block h st.
Proof.
  unfold format_block, report_block, line.
  repeat rewrite append_assoc. reflexivity.
Qed.

Lemma format_join h stats :
  format h stats = join_blocks (map (report_block h) stats).
Proof.
  unfold format. induction stats as [| st stats IH]; [reflexivity |].
  destruct stats as [| st' stats].
  - simpl. apply format_block_lines.
  - change (format_block h st +++ nl +++
            String.concat nl (map (format_block h) (st' :: stats))
            = report_block h st +++ line "" +++
              join_blocks (map (report_block h) (st' :: stats))).
    rewrite IH, format_block_lines. reflexivity.
Qed.

(** With statuses ["P"] and ["A"] only, no value of the column is null and
    the sums are [int]s. *)
Lemma held_by_numbers vals :
  forallb is_number vals = true -> held_by vals = AsInt.
Proof.
  intros H. unfold held_by.
  replace (existsb (fun v => negb (notnull v)) vals) with false;
    [reflexivity |].
  symmetry. apply not_true_is_false. intros E.
  apply existsb_exists in E as (v & Hv & Hn).
  rewrite forallb_forall in H. specialize (H v Hv).
  destruct v; discriminate.
Qed.

Lemma sums_held_PA u : status_PA u -> sums_held u = AsInt.
Proof.
  unfold status_PA, sums_held. intros H. apply held_by_numbers.
  rewrite forallb_forall in *. intros v Hv.
  apply in_map_iff in Hv as (r & <- & Hr). specialize (H r Hr).
  unfold is_PA in H. apply orb_true_iff in H as [H | H];
    apply cell_eqb_eq in H; rewrite H; reflexivity.
Qed.

Lemma replace_status_null c :
  notnull (replace_status c) = false <-> c = None.
Proof.
  destruct c as [s |]; simpl; [| tauto].
  destruct (String.eqb s "P"); [split; discriminate |].
  destruct (String.eqb s "A"); split; discriminate.
Qed.

Lemma replace_status_number c : is_number (replace_status c) = is_PA c.
Proof.
  destruct c as [s |]; [| reflexivity]. unfold is_PA, cell_eqb. simpl.
  destruct (String.eqb s "P"); [reflexivity |].
  destruct (String.eqb s "A"); reflexivity.
Qed.

(** The sums are floats exactly when the status column has a null, has a
    ["P"] or an ["A"], and has nothing else. *)
Lemma sums_held_float u :
  sums_held u = AsFloat <->
  (exists r, In r (data u) /\
             status_cell (length (columns u)) r = None) /\
  (exists r, In r (data u) /\
             is_PA (status_cell (length (columns u)) r) = true) /\
  (forall r, In r (data u) ->
             status_cell (length (columns u)) r = None \/
             is_PA (status_cell (length (columns u)) r) = true).
Proof.
  unfold sums_held, held_by.
  set (f := fun r => replace_status (status_cell (length (columns u)) r)).
  destruct (existsb (fun v => negb (notnull v)) (map f (data u))) eqn:E1;
    [destruct (existsb is_number (map f (data u))) eqn:E2;
     [destruct (forallb (fun v => negb (notnull v) || is_number v)
                        (map f (data u))) eqn:E3 |] |];
    cbn [andb].
  - split; [intros _ | reflexivity].
    apply existsb_exists in E1 as (v1 & Hv1 & Hn1).
    apply in_map_iff in Hv1 as (r1 & <- & Hr1).
    apply existsb_exists in E2 as (v2 & Hv2 & Hn2).
    apply in_map_iff in Hv2 as (r2 & <- & Hr2).
    rewrite forallb_forall in E3.
    split; [exists r1; split; [assumption |];
            apply replace_status_null, negb_true_iff; exact Hn1 |].
    split; [exists r2; split; [assumption |];
            rewrite <- replace_status_number; exact Hn2 |].
    intros r Hr. specialize (E3 (f r) (in_map f _ _ Hr)).
    apply orb_true_iff in E3 as [E3 | E3].
    + left. apply replace_status_null, negb_true_iff. exact E3.
    + right. rewrite <- replace_status_number. exact E3.
  - split; [discriminate |]. intros (_ & _ & H). exfalso.
    apply not_true_iff_false in E3. apply E3, forallb_forall.
    intros v Hv. apply in_map_iff in Hv as (r & <- & Hr).
    apply orb_true_iff. destruct (H r Hr) as [H0 | H0].
    + left. apply negb_true_iff, replace_status_null. exact H0.
    + right. unfold f. rewrite replace_status_number. exact H0.
  - split; [discriminate |]. intros (_ & (r & Hr & H) & _). exfalso.
    apply not_true_iff_false in E2. apply E2, existsb_exists.
    exists (f r). split; [apply in_map; assumption |].
    unfold f. rewrite replace_status_number. exact H.
  - split; [discriminate |]. intros ((r & Hr & H) & _). exfalso.
    apply not_true_iff_false in E1. apply E1, existsb_exists.
    exists (f r). split; [apply in_map; assumption |].
    apply negb_true_iff, replace_status_null. exact H.
Qed.

(** The text of two courses: the lines carry the markers of the source and
    an empty line stands between the two blocks. *)
Lemma format_blank_line_between_blocks :
  lines_of (format AsInt [stats_art; stats_math])
  = [ "Course: Art";
      mark_present +++ " Present: 1";
      mark_absent +++ " Absent: 1";
      mark_total +++ " Total: 2";
      mark_percentage +++ " Percentage: 50.00%";
      "";
      "Course: Math";
      mark_present +++ " Present: 3";
      mark_absent +++ " Absent: 1";
      mark_total +++ " Total: 4";
      mark_percentage +++ " Percentage: 75.00%";
      "" ].
Proof. vm_compute. reflexivity. Qed.

(** Claim C5, amended.  The report is made of one block per CourseStats,
    in input order; a block is the five lines Course, Present, Absent,
    Total and Percentage (two decimals, followed by a percent sign), the
    last four behind the marker of the source, each line ended by a
    newline; two consecutive blocks are separated by one blank line.  The
    numbers of the lines Present and Absent are written as Python writes
    the objects the frame holds: as [int]s ([3]) when the status column is
    made of ["P"] and ["A"], as floats ([3.0]) exactly when the column has
    a null, a ["P"] or an ["A"], and nothing else; up to 48 lectures the
    float is written as the integer followed by [.0].  For a course with P, P, A, P the block
    reads 3 present, 1 absent, 4 in total and the report contains
    ["Percentage: 75.00%"]; with a null status in the table the report of
    a course present once reads [1.0] present and [0.0] absent.  The text
    [process_pdf] returns is the report of the statistics, the sums held
    as line 89 leaves them. *)
Theorem format_blocks :
  (forall h stats,
     format h stats = join_blocks (map (report_block h) stats)) /\
  (forall h st st' rest,
     format h (st :: st' :: rest)
     = report_block h st +++ line "" +++ format h (st' :: rest)) /\
  (forall u, status_PA u -> sums_held u = AsInt) /\
  (forall u,
     sums_held u = AsFloat <->
     (exists r, In r (data u) /\
                status_cell (length (columns u)) r = None) /\
     (exists r, In r (data u) /\
                is_PA (status_cell (length (columns u)) r) = true) /\
     (forall r, In r (data u) ->
                status_cell (length (columns u)) r = None \/
                is_PA (status_cell (length (columns u)) r) = true)) /\
  (forall TEMP_DIR pages fs unified stats,
     merge (concat pages) = Ok unified -> aggregate unified = Ok stats ->
     fst (process_pdf TEMP_DIR pages fs)
     = Ok (format (sums_held unified) stats, chart_file TEMP_DIR)) /\
  (forall count sum,
     str_sum AsInt sum = str_int sum /\
     str_absent AsInt count sum = str_int (count - sum)) /\
  float_text_up_to 48 = true /\
  (exists a b c,
     aggregate table_three_courses = Ok [a; b; c] /\
     sums_held table_three_courses = AsInt /\
     (courseName a, presentCount a, lectureCount a) = ("CourseA", 3, 4) /\
     lines_of (report_block AsInt a)
     = [ "Course: CourseA";
         mark_present +++ " Present: 3";
         mark_absent +++ " Absent: 1";
         mark_total +++ " Total: 4";
         mark_percentage +++ " Percentage: 75.00%";
         "" ] /\
     contains "Percentage: 75.00%" (format AsInt [a; b; c]) = true) /\
  (exists a,
     aggregate table_null_status = Ok [a] /\
     sums_held table_null_status = AsFloat /\
     lines_of (format AsFloat [a])
     = [ "Course: Math";
         mark_present +++ " Present: 1.0";
         mark_absent +++ " Absent: 0.0";
         mark_total +++ " Total: 1";
         mark_percentage +++ " Percentage: 100.00%";
         "" ]).
Proof.
  split; [exact format_join |]. split.
  { intros h st st' rest. rewrite !format_join. reflexivity. }
  split; [exact sums_held_PA |].
  split; [exact sums_held_float |].
  split.
  { intros TEMP_DIR pages fs unified stats Hm Ha.
    unfold process_pdf. rewrite Hm. cbn [bind]. rewrite Ha. reflexivity. }
  split; [intros count sum; split; reflexivity |].
  split; [vm_compute; reflexivity |]. split.
  - eexists _, _, _. split; [vm_compute; reflexivity |].
    split; [reflexivity |]. split; [reflexivity |].
    split; vm_compute; reflexivity.
  - eexists. split; [vm_compute; reflexivity |].
    split; [reflexivity |]. vm_compute. reflexivity.
Qed.

Lemma format_blocks_witness :
  (status_PA table_three_courses /\
   sums_held table_three_courses = AsInt) /\
  (merge (concat pdf_one_row) = Ok unified_one_row /\
   aggregate unified_one_row = Ok stats_one_row /\
   fst (process_pdf "/tmp" pdf_one_row no_files)
   = Ok (format (sums_held unified_one_row) stats_one_row,
         chart_file "/tmp")).
Proof.
  assert (H0 : status_PA table_three_courses) by reflexivity.
  assert (H1 : merge (concat pdf_one_row) = Ok unified_one_row)
    by reflexivity.
  assert (H2 : aggregate unified_one_row = Ok stats_one_row)
    by reflexivity.
  split.
  - split; [exact H0 |].
    exact (proj1 (proj2 (proj2 format_blocks)) table_three_courses H0).
  - split; [exact H1 | split; [exact H2 |]].
    exact (proj1 (proj2 (proj2 (proj2 (proj2 format_blocks))))
             "/tmp" pdf_one_row no_files unified_one_row stats_one_row
             H1 H2).
Defined.

(** *** Chart *)

(** Claim C9, amended.  With an empty sequence of CourseStats the chart
    function raises nothing: it draws the chart without bars and creates
    or overwrites the file at the output path, leaving the other files as
    they are. *)
Theorem generate_chart_empty (chart_path : string) (fs : FS) :
  exists fs',
    generate_chart [] chart_path fs = Ok fs' /\
    fs' chart_path = Some empty_chart /\
    forall p, p <> chart_path -> fs' p = fs p.
Proof.
  exists (savefig chart_path empty_chart fs). split; [reflexivity |].
  unfold savefig. split.
  - rewrite String.eqb_refl. reflexivity.
  - intros p Hp. destruct (String.eqb_spec p chart_path); [contradiction |].
    reflexivity.
Qed.

(** On a machine without files the empty sequence creates the chart
    file. *)
Lemma generate_chart_empty_creates_file :
  no_files "/tmp/attendance_chart.png" = None /\
  match generate_chart [] "/tmp/attendance_chart.png" no_files with
  | Ok fs' => fs' "/tmp/attendance_chart.png" = Some empty_chart
  | Raise _ => False
  end.
Proof. split; reflexivity. Qed.

(** *** Chart path *)

Lemma process_pdf_ok TEMP_DIR pages fs text path fs' :
  process_pdf TEMP_DIR pages fs = (Ok (text, path), fs') ->
  path = chart_file TEMP_DIR /\
  exists fig, fs' = savefig (chart_file TEMP_DIR) fig fs.
Proof.
  unfold process_pdf, generate_chart.
  destruct (bind _ _) as [[h grouped] | e]; intros H; inversion H.
  split; [reflexivity | eauto].
Qed.

(** Claim C10.  Whatever the PDF, a run of the pipeline that returns has
    written the chart to the file ["attendance_chart.png"] of the
    temporary directory of the process and returns that path; two runs
    return the same path and write the same file, and no other file is
    touched. *)
Theorem process_pdf_chart_path (TEMP_DIR : string)
  (pages1 pages2 : list (list RawTable)) (fs1 fs2 fs1' fs2' : FS)
  (text1 path1 text2 path2 : string) :
  process_pdf TEMP_DIR pages1 fs1 = (Ok (text1, path1), fs1') ->
  process_pdf TEMP_DIR pages2 fs2 = (Ok (text2, path2), fs2') ->
  path1 = path_join TEMP_DIR "attendance_chart.png" /\
  path2 = path1 /\
  fs1' path1 <> None /\ fs2' path1 <> None /\
  (forall p, p <> path1 -> fs1' p = fs1 p /\ fs2' p = fs2 p).
Proof.
  intros H1 H2.
  apply process_pdf_ok in H1 as (-> & fig1 & ->).
  apply process_pdf_ok in H2 as (-> & fig2 & ->).
  unfold savefig, chart_file. rewrite String.eqb_refl.
  repeat split; try discriminate;
    destruct (String.eqb_spec p (path_join TEMP_DIR "attendance_chart.png"));
    try contradiction; reflexivity.
Qed.

Lemma process_pdf_chart_path_witness :
  process_pdf "/tmp" pdf_header_only no_files
  = (Ok ("", "/tmp/attendance_chart.png"),
     savefig "/tmp/attendance_chart.png" empty_chart no_files) /\
  process_pdf "/tmp" pdf_one_row no_files
  = (Ok (format AsInt [mkStats "Math" 1 1 hundred],
         "/tmp/attendance_chart.png"),
     snd (process_pdf "/tmp" pdf_one_row no_files)) /\
  "/tmp/attendance_chart.png" = path_join "/tmp" "attendance_chart.png" /\
  "/tmp/attendance_chart.png" = "/tmp/attendance_chart.png" /\
  savefig "/tmp/attendance_chart.png" empty_chart no_files
    "/tmp/attendance_chart.png" <> None /\
  snd (process_pdf "/tmp" pdf_one_row no_files)
    "/tmp/attendance_chart.png" <> None /\
  (forall p, p <> "/tmp/attendance_chart.png" ->
     savefig "/tmp/attendance_chart.png" empty_chart no_files p = no_files p /\
     snd (process_pdf "/tmp" pdf_one_row no_files) p = no_files p).
Proof.
  assert (H1 : process_pdf "/tmp" pdf_header_only no_files
               = (Ok ("", "/tmp/attendance_chart.png"),
                  savefig "/tmp/attendance_chart.png" empty_chart no_files))
    by reflexivity.
  assert (H2 : process_pdf "/tmp" pdf_one_row no_files
               = (Ok (format AsInt [mkStats "Math" 1 1 hundred],
                      "/tmp/attendance_chart.png"),
                  snd (process_pdf "/tmp" pdf_one_row no_files)))
    by reflexivity.
  split; [exact H1 | split; [exact H2 |]].
  exact (process_pdf_chart_path "/tmp" pdf_header_only pdf_one_row
           no_files no_files _ _ _ _ _ _ H1 H2).
Defined.

(* ================================================================= *)
(** ** Further properties of the merge *)

(** *** The loop of the merge *)

Lemma locate_from_in k cols : forall b, In k cols -> locate_from b k cols <> [].
Proof.
  induction cols as [| c cols IH]; simpl; intros b H; [contradiction |].
  destruct (cell_eqb k c) eqn:E; [discriminate |].
  destruct H as [-> | H]; [rewrite cell_eqb_refl in E; discriminate |].
  apply IH. assumption.
Qed.

(** Selecting labels of the frame itself never raises [KeyError]. *)
Lemma getitem_own_labels keys df :
  incl keys (columns df) -> exists df', getitem_labels keys df = Ok df'.
Proof.
  intros H. unfold getitem_labels.
  destruct (mapM_total
              (fun k => match locate k (columns df) with
                        | [] => Raise KeyError
                        | ps => Ok ps
                        end) keys) as [idx ->].
  - intros k Hk. pose proof (locate_from_in k (columns df) 0 (H k Hk)) as Hl.
    unfold locate. destruct (locate_from 0 k (columns df)); [contradiction |].
    eauto.
  - simpl. eauto.
Qed.

Lemma getitem_rectangular keys df df' :
  getitem_labels keys df = Ok df' -> rectangular df'.
Proof.
  unfold getitem_labels. intros H. bind_ok H idx E. inversion H.
  unfold rectangular. simpl. apply Forall_forall. intros r Hr.
  apply in_map_iff in Hr as (r0 & <- & _). rewrite !length_map. reflexivity.
Qed.

Lemma promote_header_cases t :
  (t = [] /\ promote_header t = Raise IndexError) \/
  (exists h, header_row t = Some h /\
             promote_header t = Ok (mkDF h (data_rows t)) /\
             rectangular (mkDF h (data_rows t))).
Proof.
  destruct t as [| r t]; [left; split; reflexivity | right].
  destruct (header_row (r :: t)) as [h |] eqn:E; [| discriminate].
  exists h. split; [reflexivity |]. split; [apply promote_header_ok, E |].
  apply (data_rows_length (r :: t) h E).
Qed.

Lemma filter_incl {A} (p : A -> bool) l : incl (filter p l) l.
Proof. intros x Hx. apply filter_In in Hx. tauto. Qed.

(** One turn of the loop: it raises [IndexError] on a table without rows
    and, from the second table on, on an empty canonical header; otherwise
    it appends one rectangular frame and keeps the canonical header, which
    is the header of the first table. *)
Lemma loop_body_cases st t :
  match loop_body st t with
  | Raise e =>
      e = IndexError /\ (t = [] \/ (t <> [] /\ headers st = Some []))
  | Ok st' =>
      t <> [] /\ headers st <> Some [] /\
      (exists d, tables st' = tables st ++ [d] /\ rectangular d) /\
      headers st' = match headers st with
                    | None => header_row t
                    | Some h => Some h
                    end
  end.
Proof.
  unfold loop_body.
  destruct (promote_header_cases t) as [[-> ->] | (h & Hh & -> & Hr)];
    [simpl; auto |].
  assert (Ht : t <> []) by (intros ->; discriminate).
  cbn [bind columns].
  destruct (headers st) as [hs |] eqn:Eh.
  - destruct hs as [| h0 hs'].
    + split; [reflexivity | right; auto].
    + destruct (getitem_own_labels
                  (filter (fun l => label_ne l h0) h)
                  (mkDF h (data_rows t))) as [df' E];
        [apply filter_incl |].
      rewrite E. cbn [bind headers tables].
      split; [assumption |]. split; [discriminate |].
      split; [| reflexivity].
      exists df'. split; [reflexivity |].
      eapply getitem_rectangular; eassumption.
  - cbn [headers tables]. split; [assumption |]. split; [discriminate |].
    split; [eauto | symmetry; assumption].
Qed.

(** The loop from the second table on, the canonical header being [h]. *)
Lemma loop_later_cases h ts : forall st,
  headers st = Some h -> Forall rectangular (tables st) ->
  match foldM loop_body st ts with
  | Raise e => e = IndexError /\ (In [] ts \/ (h = [] /\ ts <> []))
  | Ok st' =>
      ~ In [] ts /\ (h = [] -> ts = []) /\
      headers st' = Some h /\ Forall rectangular (tables st') /\
      length (tables st') = (length (tables st) + length ts)%nat
  end.
Proof.
  induction ts as [| t ts IH]; intros st Hh Hr.
  - simpl. repeat split; auto; try lia.
  - cbn [foldM]. pose proof (loop_body_cases st t) as Hb.
    destruct (loop_body st t) as [st1 | e]; cbn [bind].
    + destruct Hb as (Ht & Hne & (d & Hd & Hrd) & Hh1).
      rewrite Hh in Hh1, Hne.
      assert (Hr1 : Forall rectangular (tables st1)).
      { rewrite Hd. apply Forall_app. split; [assumption | auto]. }
      specialize (IH st1 Hh1 Hr1).
      destruct (foldM loop_body st1 ts) as [st' | e].
      * destruct IH as (Hn & Hz & Hh' & Hr' & Hl).
        split; [intros [E | Hin]; [congruence | contradiction] |].
        split; [intros ->; contradiction |].
        split; [assumption |]. split; [assumption |].
        rewrite Hl, Hd, length_app. simpl. lia.
      * destruct IH as (-> & [Hin | [-> Hts]]).
        -- split; [reflexivity | left; right; assumption].
        -- contradiction.
    + destruct Hb as (-> & [-> | [Ht Hs]]).
      * split; [reflexivity | left; left; reflexivity].
      * split; [reflexivity | right]. split; [congruence | discriminate].
Qed.

(** The whole loop. *)
Lemma loop_cases ts :
  match foldM loop_body loop_init ts with
  | Raise e =>
      e = IndexError /\
      (In [] ts \/
       exists t0 rest, ts = t0 :: rest /\ header_row t0 = Some [] /\
                       rest <> [])
  | Ok st =>
      ~ In [] ts /\
      (forall t0 rest, ts = t0 :: rest -> header_row t0 = Some [] ->
                       rest = []) /\
      headers st = match ts with [] => None | t0 :: _ => header_row t0 end /\
      Forall rectangular (tables st) /\
      length (tables st) = length ts
  end.
Proof.
  destruct ts as [| t0 rest].
  - simpl. repeat split; auto. intros ? ? E; discriminate.
  - cbn [foldM]. pose proof (loop_body_cases loop_init t0) as Hb.
    destruct (loop_body loop_init t0) as [st1 | e]; cbn [bind].
    + destruct Hb as (Ht & _ & (d & Hd & Hrd) & Hh1). simpl in Hh1, Hd.
      destruct (header_row t0) as [h |] eqn:Eh;
        [| destruct t0; [contradiction | discriminate]].
      assert (Hr1 : Forall rectangular (tables st1))
        by (rewrite Hd; auto).
      pose proof (loop_later_cases h rest st1 Hh1 Hr1) as Hl.
      destruct (foldM loop_body st1 rest) as [st' | e].
      * destruct Hl as (Hn & Hz & Hh' & Hr' & Hlen).
        split; [intros [E | Hin]; [congruence | contradiction] |].
        split.
        { intros t0' rest' E Hh0. inversion E; subst.
          apply Hz. congruence. }
        split; [assumption |]. split; [assumption |].
        rewrite Hlen, Hd. simpl. reflexivity.
      * destruct Hl as (-> & [Hin | [-> Hts]]).
        -- split; [reflexivity | left; right; assumption].
        -- split; [reflexivity | right]. eauto.
    + destruct Hb as (-> & [-> | [_ Hs]]).
      * split; [reflexivity | left; left; reflexivity].
      * discriminate.
Qed.

(** *** The concatenation *)

Lemma labels_eqb_length a b : labels_eqb a b = true -> length a = length b.
Proof.
  unfold labels_eqb. intros H. apply andb_true_iff in H as [H _].
  apply Nat.eqb_eq. assumption.
Qed.

Lemma pd_concat_cases dfs :
  dfs <> [] -> Forall rectangular dfs ->
  match pd_concat dfs with
  | Raise e => e = InvalidIndexError
  | Ok u => rectangular u
  end.
Proof.
  intros Hne Hr. unfold pd_concat. destruct dfs as [| d0 dfs']; [contradiction |].
  set (dfs := d0 :: dfs') in *.
  destruct (forallb (fun d => labels_eqb (columns d) (columns d0)) dfs) eqn:E.
  - unfold rectangular. cbn [columns data]. apply Forall_forall. intros r Hin.
    apply in_flat_map in Hin as (d & Hd & Hin).
    rewrite forallb_forall in E. rewrite Forall_forall in Hr.
    rewrite <- (labels_eqb_length _ _ (E d Hd)).
    specialize (Hr d Hd). unfold rectangular in Hr.
    rewrite Forall_forall in Hr. auto.
  - destruct (forallb (fun d => nodupb (columns d)) dfs); [| reflexivity].
    unfold rectangular. cbn [columns data]. apply Forall_forall. intros r Hin.
    apply in_flat_map in Hin as (d & Hd & Hin).
    apply in_map_iff in Hin as (r0 & <- & _).
    unfold reindex_row. rewrite length_map. reflexivity.
Qed.

Lemma header_row_nonempty t : t <> [] -> exists h, header_row t = Some h.
Proof.
  destruct t as [| r t]; [contradiction |]. intros _.
  unfold header_row, frame_rows. simpl. eauto.
Qed.

(** What the merge does after the loop. *)
Lemma merge_cases ts :
  match merge ts with
  | Ok u =>
      exists t0 rest h,
        ts = t0 :: rest /\ header_row t0 = Some h /\
        columns u = h /\ rectangular u /\
        ~ In [] ts /\ (h = [] -> rest = [])
  | Raise e =>
      (e = IndexError /\
       (In [] ts \/
        exists t0 rest, ts = t0 :: rest /\ header_row t0 = Some [] /\
                        rest <> [])) \/
      (e = ValueError "No tables found in the PDF." /\ ts = []) \/
      ((e = InvalidIndexError \/ e = ValueError "Length mismatch") /\
       ts <> [] /\ ~ In [] ts)
  end.
Proof.
  unfold merge. pose proof (loop_cases ts) as Hl.
  destruct (foldM loop_body loop_init ts) as [st | e]; cbn [bind].
  - destruct Hl as (Hn & Hz & Hh & Hr & Hlen).
    destruct (tables st) as [| d ds] eqn:Et.
    + destruct ts; [| discriminate]. right. left. auto.
    + destruct ts as [| t0 rest]; [discriminate |].
      assert (Ht0 : t0 <> []) by (intros ->; apply Hn; left; reflexivity).
      destruct (header_row_nonempty t0 Ht0) as [h Eh]. rewrite Eh in Hh.
      pose proof (pd_concat_cases (d :: ds) ltac:(discriminate) Hr) as Hc.
      destruct (pd_concat (d :: ds)) as [r |]; cbn [bind].
      * rewrite Hh. unfold set_columns.
        destruct (Nat.eqb_spec (length h) (length (columns r))) as [E | E].
        -- exists t0, rest, h. split; [reflexivity |]. split; [assumption |].
           split; [reflexivity |]. split.
           ++ unfold rectangular in *. cbn [columns data]. rewrite E. exact Hc.
           ++ split; [assumption |]. intros ->. eapply Hz; eauto.
        -- right. right. split; [auto |]. split; [discriminate | assumption].
      * subst e. right. right. split; [auto |].
        split; [discriminate | assumption].
  - left. assumption.
Qed.

(** Property X1.  Whenever the merge returns, there was at least one
    table, the columns of the unified table are the header row of the
    first table (padded as [pd.DataFrame] pads it), and every row of the
    unified table has exactly one cell per column. *)
Theorem merge_returns_first_header ts u :
  merge ts = Ok u ->
  exists t0 rest,
    ts = t0 :: rest /\
    header_row t0 = Some (columns u) /\
    Forall (fun r => length r = length (columns u)) (data u).
Proof.
  intros H. pose proof (merge_cases ts) as Hc. rewrite H in Hc.
  destruct Hc as (t0 & rest & h & -> & Hh & <- & Hr & _).
  exists t0, rest. auto.
Qed.

Lemma merge_returns_first_header_witness :
  merge [page_one; page_two] = Ok merged_pages /\
  exists t0 rest,
    [page_one; page_two] = t0 :: rest /\
    header_row t0 = Some (columns merged_pages) /\
    Forall (fun r => length r = length (columns merged_pages))
           (data merged_pages).
Proof.
  assert (H : merge [page_one; page_two] = Ok merged_pages) by reflexivity.
  split; [exact H |].
  exact (merge_returns_first_header [page_one; page_two] merged_pages H).
Defined.



(** *** One table *)

(** Property X3.  A single table is never refused: whatever its labels
    (repeated, null), the unified table has its header row as columns and
    its other rows as data. *)
Theorem merge_single_table t h :
  header_row t = Some h -> merge [t] = Ok (mkDF h (data_rows t)).
Proof.
  intros Hh. unfold merge. cbn [foldM]. unfold loop_body at 1.
  rewrite (promote_header_ok t h Hh).
  cbn [bind loop_init headers tables columns app].
  unfold pd_concat. cbn [forallb columns].
  rewrite labels_eqb_refl. cbn [andb bind flat_map data].
  rewrite app_nil_r. unfold set_columns. cbn [columns data].
  rewrite Nat.eqb_refl. reflexivity.
Qed.

Lemma merge_single_table_witness :
  header_row twice_page_one = Some twice_header /\
  merge [twice_page_one] = Ok (mkDF twice_header (data_rows twice_page_one)).
Proof.
  assert (H : header_row twice_page_one = Some twice_header) by reflexivity.
  split; [exact H |].
  exact (merge_single_table twice_page_one twice_header H).
Defined.

(** *** A page with a label the first page lacks *)

Lemma locate_nodup k cols :
  NoDup cols -> In k cols ->
  exists i, locate k cols = [i] /\ nth i cols None = k.
Proof.
  intros Hnd Hin. apply in_split in Hin as (l1 & l2 & ->).
  exists (length l1). split.
  - unfold locate. rewrite (locate_from_unique l1 k l2 0 Hnd). reflexivity.
  - rewrite app_nth2, Nat.sub_diag by lia. reflexivity.
Qed.

Lemma locate_all keys (cols : list cell) idx :
  NoDup cols -> incl keys cols ->
  mapM (fun k => match locate k cols with
                 | [] => Raise KeyError
                 | ps => Ok ps
                 end) keys = Ok idx ->
  map (fun i => nth i cols None) (concat idx) = keys.
Proof.
  intros Hnd Hincl E. apply mapM_ok_Forall2 in E.
  induction E as [| k ps keys idx Hk _ IH]; [reflexivity |].
  destruct (locate_nodup k cols Hnd (Hincl k (or_introl eq_refl)))
    as (i & Ei & En).
  rewrite Ei in Hk. inversion Hk; subst ps. cbn [concat app map].
  rewrite En. f_equal. apply IH.
  intros x Hx. apply Hincl. right. assumption.
Qed.

Lemma getitem_columns keys df d :
  NoDup (columns df) -> incl keys (columns df) ->
  getitem_labels keys df = Ok d -> columns d = keys.
Proof.
  intros Hnd Hincl. unfold getitem_labels. intros H. bind_ok H idx E.
  inversion H. cbn [columns]. apply locate_all; assumption.
Qed.

Lemma labels_eqb_eq a : forall b, labels_eqb a b = true -> a = b.
Proof.
  unfold labels_eqb. induction a as [| x a IH]; intros [| y b] H;
    try reflexivity; try discriminate.
  cbn [length combine forallb fst snd] in H.
  apply andb_true_iff in H as [Hl H]. apply andb_true_iff in H as [Hx H].
  apply cell_eqb_eq in Hx. subst y. f_equal. apply IH.
  rewrite H, andb_true_r. exact Hl.
Qed.

Lemma union_fold l : forall acc,
  exists extra,
    fold_left (fun acc l => if existsb (cell_eqb l) acc then acc
                            else acc ++ [l]) l acc = acc ++ extra /\
    forall x, In x l -> In x (acc ++ extra).
Proof.
  induction l as [| c l IH]; intros acc; cbn [fold_left].
  - exists []. split; [rewrite app_nil_r; reflexivity | intros x []].
  - destruct (existsb (cell_eqb c) acc) eqn:E.
    + destruct (IH acc) as (extra & -> & Hin). exists extra.
      split; [reflexivity |]. intros x [<- | Hx]; [| auto].
      apply in_or_app. left. apply existsb_cell_In. assumption.
    + destruct (IH (acc ++ [c])) as (extra & -> & Hin).
      exists (c :: extra). rewrite <- app_assoc.
      split; [reflexivity |]. intros x [<- | Hx].
      * apply in_or_app. right. left. reflexivity.
      * specialize (Hin x Hx). rewrite <- app_assoc in Hin. exact Hin.
Qed.

Lemma union_labels_extra h ls l cols :
  NoDup h -> In cols ls -> In l cols -> ~ In l h ->
  exists extra, union_labels (h :: ls) = h ++ extra /\ extra <> [].
Proof.
  intros Hnd Hc Hl Hn. unfold union_labels. cbn [concat].
  rewrite fold_left_app, (union_labels_acc h []) by assumption. cbn [app].
  destruct (union_fold (concat ls) h) as (extra & -> & Hin).
  exists extra. split; [reflexivity |]. intros ->.
  apply Hn. rewrite app_nil_r in Hin. apply Hin.
  apply in_concat. eauto.
Qed.

(** The frames of the tables after the first one: each keeps the labels
    of its own header that differ from the first canonical label. *)
Lemma loop_later_columns h0 hrest ts : forall st,
  headers st = Some (h0 :: hrest) ->
  Forall (fun t => exists h', header_row t = Some h' /\ NoDup h') ts ->
  exists frames,
    foldM loop_body st ts
    = Ok (mkLoop (Some (h0 :: hrest)) (tables st ++ frames)) /\
    Forall2 (fun t d => exists h', header_row t = Some h' /\
                          columns d = filter (fun l => label_ne l h0) h')
            ts frames.
Proof.
  induction ts as [| t ts IH]; intros st Hh Hts.
  - exists []. rewrite app_nil_r. split; [| constructor].
    simpl. destruct st. simpl in Hh. subst. reflexivity.
  - inversion Hts as [| ? ? (h' & Hh' & Hnd') Hts']; subst.
    cbn [foldM]. unfold loop_body at 1.
    rewrite (promote_header_ok t h' Hh'). cbn [bind columns]. rewrite Hh.
    destruct (getitem_own_labels (filter (fun l => label_ne l h0) h')
                (mkDF h' (data_rows t))) as [d Ed]; [apply filter_incl |].
    rewrite Ed. cbn [bind].
    destruct (IH (mkLoop (Some (h0 :: hrest)) (tables st ++ [d]))
                eq_refl Hts') as (frames & -> & HF).
    exists (d :: frames). cbn [tables]. rewrite <- app_assoc.
    split; [reflexivity |]. constructor; [| assumption].
    exists h'. split; [assumption |].
    apply (getitem_columns _ (mkDF h' (data_rows t)));
      [assumption | apply filter_incl | assumption].
Qed.

Lemma label_ne_of_neq l h0 : l <> h0 -> label_ne l h0 = true.
Proof.
  destruct l as [a |], h0 as [b |]; try reflexivity. intros H. simpl.
  destruct (String.eqb_spec a b); [subst; contradiction | reflexivity].
Qed.



(* ================================================================= *)
(** ** Further properties of the aggregation *)

(** *** Values of the status column *)

Lemma replace_status_int c z :
  replace_status c = PInt z ->
  (c = Some "P" /\ z = 1) \/ (c = Some "A" /\ z = 0).
Proof.
  destruct c as [s |]; [| discriminate]. simpl.
  destruct (String.eqb_spec s "P") as [-> | _];
    [intros E; inversion E; auto |].
  destruct (String.eqb_spec s "A") as [-> | _];
    [intros E; inversion E; auto | discriminate].
Qed.

Lemma group_values_bits u k :
  forallb is_int (filter notnull (group_values k (records_of u))) = true ->
  Forall bit (filter notnull (group_values k (records_of u))).
Proof.
  intros H. rewrite forallb_forall in H. apply Forall_forall. intros v Hv.
  specialize (H v Hv). apply filter_In in Hv as [Hv _].
  rewrite group_values_rows in Hv. apply in_map_iff in Hv as (r & E & _).
  destruct v as [| s | z]; try discriminate. unfold mapped_status in E.
  apply replace_status_int in E as [[_ ->] | [_ ->]]; [right | left];
    reflexivity.
Qed.

Lemma filter_idem {A} (p : A -> bool) l : filter p (filter p l) = filter p l.
Proof.
  induction l as [| a l IH]; simpl; [reflexivity |].
  destruct (p a) eqn:E; simpl; rewrite ?E, IH; reflexivity.
Qed.

Lemma bits_total nn :
  Forall bit nn -> 0 <= int_total nn <= Z.of_nat (length nn).
Proof. intros H. apply bits_facts in H. tauto. Qed.

(** *** The statistics that are returned *)

Lemma stat_facts u stats st :
  aggregate u = Ok stats -> In st stats ->
  In (courseName st) (group_keys (records_of u)) /\
  Forall bit (filter notnull (group_values (courseName st) (records_of u))) /\
  presentCount st
  = int_total (filter notnull (group_values (courseName st) (records_of u))) /\
  lectureCount st = group_count (group_values (courseName st) (records_of u)) /\
  0 <= presentCount st <= lectureCount st /\
  1 <= lectureCount st /\
  percentage st
  = match Float64.int_truediv (presentCount st) (lectureCount st) with
    | Ok q => Float64.fmul q (Float64.of_int 100)
    | Raise _ => Float64.FNaN
    end.
Proof.
  intros H Hst. pose proof (stats_in_keys _ _ _ H Hst) as Hk.
  destruct (aggregate_inv _ _ H) as (_ & _ & Hs).
  rewrite Forall_forall in Hs.
  destruct (Hs st Hst) as (Hi & Hp & Hc & q & Hq & Hpct).
  pose proof (group_values_bits u (courseName st) Hi) as Hb.
  pose proof (bits_total _ Hb) as Ht.
  assert (Hle : 0 <= presentCount st <= lectureCount st).
  { rewrite Hp, Hc. unfold group_count. exact Ht. }
  assert (H1 : 1 <= lectureCount st).
  { destruct (Z.eq_dec (lectureCount st) 0) as [E | E]; [| lia].
    rewrite E in Hq. unfold Float64.int_truediv in Hq. simpl in Hq.
    discriminate. }
  rewrite Hq. repeat split; auto; lia.
Qed.

(** Property X5.  Whatever the unified table, every CourseStats the
    aggregation returns counts at least one lecture, has
    [0 <= presentCount <= lectureCount] and a finite percentage between 0
    and 100. *)
Theorem aggregate_bounds u stats :
  aggregate u = Ok stats ->
  Forall (fun st =>
    1 <= lectureCount st /\
    0 <= presentCount st <= lectureCount st /\
    Float64.is_finite (percentage st) = true /\
    (0 <= Float64.F2Q (percentage st) <= 100)%Q) stats.
Proof.
  intros H. apply Forall_forall. intros st Hst.
  destruct (stat_facts u stats st H Hst) as (_ & _ & _ & _ & Hle & H1 & Hpct).
  destruct (percentage_bound (presentCount st) (lectureCount st))
    as (q & m & e & Hq & Hm & He & Hme); [lia | lia |].
  rewrite Hq in Hpct. rewrite Hpct, Hm.
  split; [assumption |]. split; [assumption |].
  split; [reflexivity |]. apply (F2Q_bound m e 100); assumption.
Qed.

Lemma aggregate_bounds_witness :
  aggregate table_three_courses = Ok stats_three_courses /\
  Forall (fun st =>
    1 <= lectureCount st /\
    0 <= presentCount st <= lectureCount st /\
    Float64.is_finite (percentage st) = true /\
    (0 <= Float64.F2Q (percentage st) <= 100)%Q) stats_three_courses.
Proof.
  assert (H : aggregate table_three_courses = Ok stats_three_courses)
    by reflexivity.
  split; [exact H |].
  exact (aggregate_bounds table_three_courses stats_three_courses H).
Defined.

(** Property X6.  The statistics are returned in strictly ascending order
    of course name (the order of Python on [str]), so no course is
    reported twice. *)
Theorem aggregate_sorted u stats :
  aggregate u = Ok stats ->
  StronglySorted (fun a b => str_ltb a b = true) (map courseName stats).
Proof.
  intros H. destruct (aggregate_inv _ _ H) as (_ & -> & _).
  apply group_keys_sorted.
Qed.

Lemma aggregate_sorted_witness :
  aggregate table_three_courses_swapped = Ok stats_three_courses /\
  StronglySorted (fun a b => str_ltb a b = true)
                 (map courseName stats_three_courses).
Proof.
  assert (H : aggregate table_three_courses_swapped
              = Ok stats_three_courses) by reflexivity.
  split; [exact H |].
  exact (aggregate_sorted table_three_courses_swapped stats_three_courses H).
Defined.

(** *** Full and null attendance *)

Lemma int_truediv_self c :
  0 < c -> Float64.int_truediv c c = Ok (Float64.FFin (2 ^ 52) (-52)).
Proof.
  intros Hc. unfold Float64.int_truediv.
  replace (c =? 0) with false by (symmetry; apply Z.eqb_neq; lia).
  replace (0 <? c) with true by (symmetry; apply Z.ltb_lt; lia).
  assert (E : Float64.round_ratio c c = Float64.FFin (2 ^ 52) (-52)).
  { destruct c as [| p | p]; try lia. unfold Float64.round_ratio.
    unfold Float64.round_pos, Float64.ilog2_ratio, Float64.scaled_le.
    rewrite Z.sub_diag. change (0 <=? 0) with true. cbv iota.
    change (2 ^ 0) with 1. rewrite Z.mul_1_r, Z.leb_refl.
    change (Z.max (0 - (Float64.prec - 1)) Float64.emin) with (-52).
    change (0 <=? -52) with false. cbv iota. change (- -52) with 52.
    assert (Er : Float64.rne (Z.pos p * 2 ^ 52) (Z.pos p) = 2 ^ 52).
    { unfold Float64.rne. rewrite (Z.mul_comm (Z.pos p)).
      rewrite Z.div_mul, Z.mod_mul by lia. reflexivity. }
    rewrite Er. reflexivity. }
  rewrite E. reflexivity.
Qed.

Lemma int_truediv_zero c :
  0 < c -> Float64.int_truediv 0 c = Ok (Float64.FFin 0 0).
Proof.
  intros Hc. unfold Float64.int_truediv.
  replace (c =? 0) with false by (symmetry; apply Z.eqb_neq; lia).
  replace (0 <? c) with true by (symmetry; apply Z.ltb_lt; lia).
  reflexivity.
Qed.

(** Property X7.  A course present at every counted lecture is reported
    with the percentage text ["100.00"], a course never present with
    ["0.00"]: the binary64 rounding of [(sum / count) * 100] is exact
    there. *)
Theorem aggregate_full_and_null_attendance u stats :
  aggregate u = Ok stats ->
  Forall (fun st =>
    (presentCount st = lectureCount st ->
     format_2f (percentage st) = "100.00") /\
    (presentCount st = 0 -> format_2f (percentage st) = "0.00")) stats.
Proof.
  intros H. apply Forall_forall. intros st Hst.
  destruct (stat_facts u stats st H Hst) as (_ & _ & _ & _ & _ & H1 & Hpct).
  split; intros E; rewrite Hpct, E.
  - rewrite int_truediv_self by lia. reflexivity.
  - rewrite int_truediv_zero by lia. reflexivity.
Qed.

Lemma aggregate_full_and_null_attendance_witness :
  aggregate table_null_status = Ok stats_one_row /\
  Forall (fun st =>
    (presentCount st = lectureCount st ->
     format_2f (percentage st) = "100.00") /\
    (presentCount st = 0 -> format_2f (percentage st) = "0.00"))
    stats_one_row.
Proof.
  assert (H : aggregate table_null_status = Ok stats_one_row)
    by reflexivity.
  split; [exact H |].
  exact (aggregate_full_and_null_attendance table_null_status
           stats_one_row H).
Defined.

(** *** Sums over the groups *)

Lemma sumZ_map_add {A} (g h : A -> Z) l :
  sumZ (map (fun k => g k + h k) l) = sumZ (map g l) + sumZ (map h l).
Proof. induction l as [| a l IH]; simpl; lia. Qed.

Lemma sumZ_map_zero {A} (l : list A) : sumZ (map (fun _ => 0) l) = 0.
Proof. induction l as [| a l IH]; simpl; lia. Qed.

Lemma sumZ_indicator c x ks :
  NoDup ks ->
  sumZ (map (fun k => if String.eqb c k then x else 0) ks)
  = if in_dec string_dec c ks then x else 0.
Proof.
  induction 1 as [| k ks Hk Hnd IH]; simpl; [reflexivity |].
  rewrite IH. destruct (String.eqb_spec c k) as [-> | Hne].
  - destruct (string_dec k k); [| contradiction].
    destruct (in_dec string_dec k ks); [contradiction | lia].
  - destruct (string_dec k c); [congruence |].
    destruct (in_dec string_dec c ks); lia.
Qed.

(** Summing a quantity of the rows group by group is summing it over the
    rows that have a course name. *)
Lemma sum_over_groups_rows (f : list cell -> Z) keys rows :
  NoDup keys ->
  (forall r c, In r rows -> course_cell r = Some c -> In c keys) ->
  sumZ (map (fun k =>
          sumZ (map f (filter (fun r => cell_eqb (course_cell r) (Some k))
                              rows))) keys)
  = sumZ (map f (filter has_course rows)).
Proof.
  intros Hnd. induction rows as [| r rows IH]; intros Hall.
  - simpl. apply sumZ_map_zero.
  - assert (IH' := IH (fun r0 c H0 => Hall r0 c (or_intror H0))). clear IH.
    cbn [filter]. unfold has_course at 1.
    destruct (course_cell r) as [c |] eqn:Ec.
    + transitivity
        (sumZ (map (fun k =>
                 (if String.eqb c k then f r else 0) +
                 sumZ (map f (filter (fun r0 => cell_eqb (course_cell r0)
                                                         (Some k)) rows)))
              keys)).
      * f_equal. apply map_ext. intros k. cbn [cell_eqb].
        destruct (String.eqb c k); simpl; lia.
      * rewrite sumZ_map_add, (sumZ_indicator c (f r) keys Hnd), IH'.
        destruct (in_dec string_dec c keys) as [_ | Hn]; [reflexivity |].
        exfalso. apply Hn. eapply Hall; [left; reflexivity | eassumption].
    + exact IH'.
Qed.

Lemma sum_over_groups (u : DataFrame) (f : list cell -> Z) keys :
  NoDup keys ->
  (forall r c, In r (data u) -> course_cell r = Some c -> In c keys) ->
  sumZ (map (fun k => sumZ (map f (group_rows u k))) keys)
  = sumZ (map f (filter has_course (data u))).
Proof. apply sum_over_groups_rows. Qed.

Lemma sumZ_filter_length {A} (p : A -> bool) l :
  sumZ (map (fun a => if p a then 1 else 0) l)
  = Z.of_nat (length (filter p l)).
Proof.
  induction l as [| a l IH]; simpl; [reflexivity |].
  destruct (p a); simpl length; rewrite ?Nat2Z.inj_succ; lia.
Qed.

Lemma int_total_filter l : int_total (filter notnull l) = int_total l.
Proof.
  induction l as [| v l IH]; simpl; [reflexivity |].
  destruct v; simpl; rewrite IH; reflexivity.
Qed.

Lemma int_total_map {A} (g : A -> pyval) l :
  int_total (map g l) = sumZ (map (fun a => present_value (g a)) l).
Proof.
  induction l as [| a l IH]; simpl; [reflexivity |].
  destruct (g a); simpl; rewrite IH; reflexivity.
Qed.

Lemma length_filter_map {A B} (g : A -> B) (p : B -> bool) l :
  length (filter p (map g l)) = length (filter (fun a => p (g a)) l).
Proof.
  induction l as [| a l IH]; simpl; [reflexivity |].
  destruct (p (g a)); simpl; rewrite IH; reflexivity.
Qed.

Lemma present_value_status u r :
  present_value (mapped_status u r) = if is_present u r then 1 else 0.
Proof.
  unfold mapped_status, is_present.
  destruct (status_cell (length (columns u)) r) as [s |]; [| reflexivity].
  simpl. destruct (String.eqb s "P"); [reflexivity |].
  destruct (String.eqb s "A"); reflexivity.
Qed.

Lemma map_by_name {B} (F : CourseStats -> B) (G : string -> B) stats :
  (forall st, In st stats -> F st = G (courseName st)) ->
  map F stats = map G (map courseName stats).
Proof.
  induction stats as [| st stats IH]; simpl; intros H; [reflexivity |].
  rewrite H by auto. f_equal. apply IH. auto.
Qed.

Lemma filter_filter {A} (p q : A -> bool) l :
  filter q (filter p l) = filter (fun a => p a && q a) l.
Proof.
  induction l as [| a l IH]; simpl; [reflexivity |].
  destruct (p a); simpl; [destruct (q a) |]; rewrite IH; reflexivity.
Qed.

(** Property X8.  The lecture counts of all the courses add up to the
    number of rows that have a course name and a status, and the present
    counts to the number of rows that have a course name and the status
    ["P"]: every such row is counted in one course, once. *)
Theorem aggregate_counts_every_row_once u stats :
  aggregate u = Ok stats ->
  sumZ (map lectureCount stats)
  = Z.of_nat (length (filter (counted u) (data u))) /\
  sumZ (map presentCount stats)
  = Z.of_nat (length (filter (fun r => has_course r && is_present u r)
                             (data u))).
Proof.
  intros H. destruct (aggregate_inv _ _ H) as (_ & Hk & _).
  assert (Hnd : NoDup (map courseName stats))
    by (rewrite Hk; apply sorted_NoDup, group_keys_sorted).
  assert (Hall : forall r c, In r (data u) -> course_cell r = Some c ->
                             In c (map courseName stats)).
  { intros r c Hr Hc. rewrite Hk. apply records_keys. eauto. }
  split.
  - rewrite (map_by_name lectureCount
               (fun k => sumZ (map (fun r => if notnull (mapped_status u r)
                                             then 1 else 0)
                                   (group_rows u k)))).
    + rewrite (sum_over_groups u _ _ Hnd Hall).
      rewrite sumZ_filter_length, filter_filter. reflexivity.
    + intros st Hst.
      destruct (stat_facts u stats st H Hst) as (_ & _ & _ & -> & _).
      unfold group_count. rewrite group_values_rows, length_filter_map.
      symmetry. apply sumZ_filter_length.
  - rewrite (map_by_name presentCount
               (fun k => sumZ (map (fun r => if is_present u r then 1 else 0)
                                   (group_rows u k)))).
    + rewrite (sum_over_groups u _ _ Hnd Hall).
      rewrite sumZ_filter_length, filter_filter. reflexivity.
    + intros st Hst.
      destruct (stat_facts u stats st H Hst) as (_ & _ & -> & _).
      rewrite int_total_filter, group_values_rows, int_total_map.
      f_equal. apply map_ext. intros r. apply present_value_status.
Qed.

Lemma aggregate_counts_every_row_once_witness :
  aggregate table_null_status = Ok stats_one_row /\
  sumZ (map lectureCount stats_one_row)
  = Z.of_nat (length (filter (counted table_null_status)
                             (data table_null_status))) /\
  sumZ (map presentCount stats_one_row)
  = Z.of_nat (length (filter (fun r => has_course r &&
                                       is_present table_null_status r)
                             (data table_null_status))).
Proof.
  assert (H : aggregate table_null_status = Ok stats_one_row)
    by reflexivity.
  split; [exact H |].
  exact (aggregate_counts_every_row_once table_null_status stats_one_row H).
Defined.

(** *** Tables too narrow *)

(** Property X9.  A unified table with fewer than three columns is never
    aggregated: with fewer than two, position 1 is out of bounds
    ([IndexError]); with two, positions 1 and -1 select the same column,
    and grouping by its label raises ([TypeError] for the label [None],
    [ValueError] otherwise, the frame having that label twice). *)
Theorem aggregate_needs_three_columns u :
  (length (columns u) < 3)%nat ->
  aggregate u
  = Raise (if (length (columns u) <? 2)%nat then IndexError
           else match course_cell (columns u) with
                | None => TypeError
                | Some _ => ValueError "Grouper not 1-dimensional"
                end).
Proof.
  intros Hn. unfold aggregate, select_columns.
  destruct (Nat.ltb_spec (length (columns u)) 2) as [H2 | H2];
    [reflexivity |].
  assert (E : length (columns u) = 2%nat) by lia.
  cbn [bind]. unfold groupby_agg. cbn [course_label status_label].
  destruct (course_cell (columns u)) as [c |] eqn:Ec; [| reflexivity].
  unfold status_cell. rewrite E. change (2 - 1)%nat with 1%nat.
  fold (course_cell (columns u)). rewrite Ec, cell_eqb_refl. reflexivity.
Qed.

Lemma aggregate_needs_three_columns_witness :
  (length (columns table_two_columns) < 3)%nat /\
  aggregate table_two_columns
  = Raise (if (length (columns table_two_columns) <? 2)%nat then IndexError
           else match course_cell (columns table_two_columns) with
                | None => TypeError
                | Some _ => ValueError "Grouper not 1-dimensional"
                end).
Proof.
  assert (H : (length (columns table_two_columns) < 3)%nat)
    by (simpl; lia).
  split; [exact H |].
  exact (aggregate_needs_three_columns table_two_columns H).
Defined.

(** *** Exceptions of the aggregation *)

Lemma mapM_raise {A B} (f : A -> result B) l e :
  mapM f l = Raise e -> exists a, In a l /\ f a = Raise e.
Proof.
  induction l as [| a l IH]; simpl; [discriminate |].
  destruct (f a) as [b |] eqn:Ea; simpl.
  - destruct (mapM f l) as [bs |]; simpl; [discriminate |].
    intros E. destruct (IH E) as (a' & ? & ?). eauto.
  - intros E. inversion E; subst. eauto.
Qed.

Lemma group_of_cases rs k :
  match group_of rs k with
  | Raise e => e = TypeError
  | Ok g =>
      g_course g = k /\ count_lecture g = group_count (group_values k rs) /\
      ((exists s, sum_present g = PStr s) \/
       (forallb is_int (filter notnull (group_values k rs)) = true /\
        sum_present g = PInt (int_total (filter notnull (group_values k rs)))))
  end.
Proof.
  unfold group_of.
  destruct (group_sum_cases (group_values k rs))
    as [[Hi ->] | [(Hi & Hs & s & ->) | (Hi & Hs & ->)]]; simpl; eauto 6.
Qed.

(** Property X10.  The aggregation raises nothing but [IndexError],
    [TypeError], [ZeroDivisionError] and the [ValueError] of a grouper that
    is not one-dimensional.  [IndexError] is raised exactly when the table
    has fewer than two columns, the [ValueError] exactly when it has at
    least two and the second and the last column carry the same label, a
    label that is not null. *)
Theorem aggregate_exceptions u e :
  aggregate u = Raise e ->
  (e = IndexError <-> (length (columns u) < 2)%nat) /\
  (e = ValueError "Grouper not 1-dimensional" <->
   (2 <= length (columns u))%nat /\
   course_cell (columns u) <> None /\
   course_cell (columns u) = status_cell (length (columns u)) (columns u)) /\
  (e = IndexError \/ e = TypeError \/ e = ZeroDivisionError \/
   e = ValueError "Grouper not 1-dimensional").
Proof.
  intros H. destruct (layout_okb u) eqn:EL.
  - (* the layout is right: the exception comes from the sums or from
       the percentages *)
    assert (HL := EL). apply layout_ok_iff in HL as (Hn & [c Hc] & Hne).
    assert (He : e = TypeError \/ e = ZeroDivisionError).
    { rewrite (aggregate_layout u EL) in H.
      destruct (mapM (group_of (records_of u)) (group_keys (records_of u)))
        as [gs |] eqn:Eg; cbn [bind] in H.
      - apply mapM_raise in H as (g & Hg & Eg').
        apply mapM_ok_Forall2 in Eg.
        destruct (Forall2_In_r _ _ _ _ Eg Hg) as (k & Hk & Ek).
        pose proof (group_of_cases (records_of u) k) as Hc'.
        rewrite Ek in Hc'. destruct Hc' as (_ & Hcount & [[s Hs] | [Hi Hs]]).
        + unfold add_percentage in Eg'. rewrite Hs in Eg'.
          inversion Eg'. auto.
        + unfold add_percentage in Eg'. rewrite Hs, Hcount in Eg'.
          pose proof (bits_total _ (group_values_bits u k Hi)) as Hb.
          unfold group_count in Eg'.
          set (z := int_total _) in *. set (n := Z.of_nat _) in *.
          destruct (Z.eq_dec n 0) as [E0 | E0].
          * rewrite E0 in Eg'. unfold Float64.int_truediv in Eg'.
            simpl in Eg'. inversion Eg'. auto.
          * destruct (percentage_bound z n) as (q & _ & _ & Hq & _);
              [lia | lia |].
            rewrite Hq in Eg'. discriminate.
      - inversion H; subst. apply mapM_raise in Eg as (k & _ & Ek).
        pose proof (group_of_cases (records_of u) k) as Hc'.
        rewrite Ek in Hc'. auto. }
    split; [split; [intros ->; destruct He; discriminate | lia] |].
    split; [| tauto].
    split; [intros ->; destruct He; discriminate |].
    intros (_ & _ & E). contradiction.
  - revert H. unfold aggregate, select_columns, groupby_agg.
    unfold layout_okb in EL.
    destruct (Nat.ltb_spec (length (columns u)) 2) as [H2 | H2].
    + intros H. inversion H. split; [split; [lia | reflexivity] |].
      split; [| auto]. split; [discriminate | lia].
    + cbn [bind course_label status_label records].
      replace (2 <=? length (columns u))%nat with true in EL
        by (symmetry; apply Nat.leb_le; assumption).
      destruct (course_cell (columns u)) as [c |] eqn:Ec.
      * rewrite !andb_true_l in EL. apply negb_false_iff in EL.
        rewrite EL. intros H. inversion H.
        apply cell_eqb_eq in EL.
        split; [split; [discriminate | lia] |].
        split; [| auto 6].
        split; [intros _; split; [assumption | split; [discriminate |]];
                assumption | reflexivity].
      * intros H. inversion H.
        split; [split; [discriminate | lia] |]. split; [| auto].
        split; [discriminate | intros (_ & Hc & _); contradiction].
Qed.

Lemma aggregate_exceptions_witness :
  aggregate table_unknown_symbol = Raise TypeError /\
  (TypeError = IndexError <->
   (length (columns table_unknown_symbol) < 2)%nat) /\
  (TypeError = ValueError "Grouper not 1-dimensional" <->
   (2 <= length (columns table_unknown_symbol))%nat /\
   course_cell (columns table_unknown_symbol) <> None /\
   course_cell (columns table_unknown_symbol)
   = status_cell (length (columns table_unknown_symbol))
                 (columns table_unknown_symbol)) /\
  (TypeError = IndexError \/ TypeError = TypeError \/
   TypeError = ZeroDivisionError \/
   TypeError = ValueError "Grouper not 1-dimensional").
Proof.
  assert (H : aggregate table_unknown_symbol = Raise TypeError)
    by reflexivity.
  split; [exact H |].
  exact (aggregate_exceptions table_unknown_symbol TypeError H).
Defined.

(** *** Pages and statistics *)

Lemma course_cell_blank h r : course_cell (blank_first h r) = course_cell r.
Proof.
  unfold blank_first, course_cell.
  destruct h as [| [s |] h]; try reflexivity. destruct r; reflexivity.
Qed.

Lemma status_cell_blank n h r :
  (2 <= n)%nat -> status_cell n (blank_first h r) = status_cell n r.
Proof.
  intros Hn. unfold blank_first, status_cell.
  destruct h as [| [s |] h]; try reflexivity.
  destruct (n - 1)%nat as [| i] eqn:E; [lia |]. destruct r; [| reflexivity].
  simpl. destruct i; reflexivity.
Qed.

Lemma flat_map_map_blank {B} (g : list cell -> B) h ts :
  (forall r, g (blank_first h r) = g r) ->
  map g (flat_map (fun t' => map (blank_first h) (data_rows t')) ts)
  = map g (flat_map data_rows ts).
Proof.
  intros Hg. induction ts as [| t ts IH]; simpl; [reflexivity |].
  rewrite !map_app, IH, map_map. f_equal. apply map_ext. exact Hg.
Qed.



(** *** The columns that are read *)

Lemma map_Forall2 {A B} (f g : A -> B) l l' :
  Forall2 (fun a a' => f a = g a') l l' -> map f l = map g l'.
Proof. induction 1; simpl; congruence. Qed.

(** Property X12.  The aggregation reads the second and the last column
    only: two unified tables of the same width whose header and rows agree,
    one by one, on the cells at these two positions give the same
    statistics, or raise the same exception. *)
Theorem aggregate_reads_two_columns u u' :
  length (columns u) = length (columns u') ->
  Forall2 (fun r r' =>
             course_cell r = course_cell r' /\
             status_cell (length (columns u)) r
             = status_cell (length (columns u)) r')
          (columns u :: data u) (columns u' :: data u') ->
  aggregate u = aggregate u'.
Proof.
  intros Hn H. inversion H as [| ? ? ? ? [Hc Hs] Hd]; subst.
  unfold aggregate, select_columns. rewrite <- Hn, <- Hc, <- Hs.
  destruct (length (columns u) <? 2)%nat; [reflexivity |].
  do 3 f_equal. apply map_Forall2.
  eapply Forall2_impl; [| exact Hd]. intros r r' [-> ->]. reflexivity.
Qed.

Lemma aggregate_reads_two_columns_witness :
  length (columns merged_pages) = length (columns table_other_dates_cells) /\
  Forall2 (fun r r' =>
             course_cell r = course_cell r' /\
             status_cell (length (columns merged_pages)) r
             = status_cell (length (columns merged_pages)) r')
          (columns merged_pages :: data merged_pages)
          (columns table_other_dates_cells :: data table_other_dates_cells) /\
  aggregate merged_pages = aggregate table_other_dates_cells.
Proof.
  assert (H0 : length (columns merged_pages)
               = length (columns table_other_dates_cells)) by reflexivity.
  assert (H1 : Forall2 (fun r r' =>
             course_cell r = course_cell r' /\
             status_cell (length (columns merged_pages)) r
             = status_cell (length (columns merged_pages)) r')
          (columns merged_pages :: data merged_pages)
          (columns table_other_dates_cells :: data table_other_dates_cells))
    by (repeat constructor).
  split; [exact H0 | split; [exact H1 |]].
  exact (aggregate_reads_two_columns merged_pages table_other_dates_cells
           H0 H1).
Defined.

(* ================================================================= *)
(** ** Further properties of the chart and of the pipeline *)

Section RoundingBelow.

Import Float64.

Lemma rne_ge num den N :
  0 <= num -> 0 < den -> N * den <= num -> N <= rne num den.
Proof.
  intros Hn Hd Hle. unfold rne.
  assert (Hq : N <= num / den) by (apply Z.div_le_lower_bound; lia).
  destruct (2 * (num mod den) ?= den); [destruct (Z.even _) | |]; lia.
Qed.

Lemma round_pos_between n d A B :
  0 < n -> 0 < d -> A * d <= n <= B * d -> 0 <= A -> 0 < B < 2 ^ 53 ->
  exists m e, round_pos n d = FFin m e /\ e <= 0 /\
              A * 2 ^ (- e) <= m <= B * 2 ^ (- e).
Proof.
  intros Hn Hd [Hlo Hhi] HA HB. unfold round_pos.
  pose proof (ilog2_ratio_le n d B Hn Hd Hhi ltac:(lia)) as HL.
  set (e := Z.max (ilog2_ratio n d - (prec - 1)) emin).
  assert (He : e <= 0) by (unfold e, prec, emin; lia).
  set (m := if 0 <=? e then rne n (d * 2 ^ e) else rne (n * 2 ^ (- e)) d).
  assert (Hp : 0 < 2 ^ (- e)) by (apply Z.pow_pos_nonneg; lia).
  assert (Hm : A * 2 ^ (- e) <= m <= B * 2 ^ (- e)).
  { unfold m. destruct (Z.leb_spec 0 e).
    - assert (E0 : e = 0) by lia. rewrite E0. simpl (- 0). simpl (2 ^ 0).
      rewrite !Z.mul_1_r. split.
      + apply rne_ge; lia.
      + apply rne_le; lia.
    - assert (n * 2 ^ (- e) <= B * d * 2 ^ (- e))
        by (apply Z.mul_le_mono_nonneg_r; lia).
      assert (A * d * 2 ^ (- e) <= n * 2 ^ (- e))
        by (apply Z.mul_le_mono_nonneg_r; lia).
      assert (0 <= n * 2 ^ (- e)) by (apply Z.mul_nonneg_nonneg; lia).
      split.
      + apply rne_ge; lia.
      + apply rne_le; lia. }
  exists m, e.
  replace (emax <=? Z.log2 m + e) with false; [auto |].
  symmetry. apply Z.leb_gt.
  assert (0 <= A * 2 ^ (- e)) by (apply Z.mul_nonneg_nonneg; lia).
  destruct (Z.eq_dec m 0) as [-> | Hm0].
  - simpl. unfold emax. lia.
  - assert (Z.log2 m < 53 - e).
    { apply Z.log2_lt_pow2; [lia |].
      replace (53 - e) with (53 + - e) by lia.
      rewrite Z.pow_add_r by lia. nia. }
    unfold emax. lia.
Qed.

Lemma of_int_2 : of_int 2 = FFin 4503599627370496 (-51).
Proof. reflexivity. Qed.

(** The height of a label, two units above a percentage. *)
Lemma label_height m e :
  e <= 0 -> 0 <= m <= 100 * 2 ^ (- e) ->
  exists m' e', fadd (FFin m e) (of_int 2) = FFin m' e' /\ e' <= 0 /\
                2 * 2 ^ (- e') <= m' <= 102 * 2 ^ (- e').
Proof.
  intros He Hm. rewrite of_int_2. unfold fadd.
  set (e0 := Z.min e (-51)).
  assert (He0 : e0 <= -51) by (unfold e0; lia).
  assert (Hee : e0 <= e) by (unfold e0; lia).
  replace (0 <=? e0) with false by (symmetry; apply Z.leb_gt; lia).
  assert (Hp0 : 0 < 2 ^ (- e0)) by (apply Z.pow_pos_nonneg; lia).
  assert (Hp : 0 < 2 ^ (- e)) by (apply Z.pow_pos_nonneg; lia).
  assert (Hpd : 0 < 2 ^ (e - e0)) by (apply Z.pow_pos_nonneg; lia).
  assert (E1 : 2 ^ (- e) * 2 ^ (e - e0) = 2 ^ (- e0)).
  { rewrite <- Z.pow_add_r by lia. f_equal. lia. }
  assert (E2 : 4503599627370496 * 2 ^ (-51 - e0) = 2 * 2 ^ (- e0)).
  { change 4503599627370496 with (2 ^ 52).
    rewrite <- Z.pow_add_r by lia.
    replace (52 + (-51 - e0)) with (1 + - e0) by lia.
    rewrite Z.pow_add_r by lia. reflexivity. }
  rewrite E2.
  assert (H1 : 0 <= m * 2 ^ (e - e0)) by (apply Z.mul_nonneg_nonneg; lia).
  assert (H2 : m * 2 ^ (e - e0) <= 100 * 2 ^ (- e0)).
  { rewrite <- E1, Z.mul_assoc. apply Z.mul_le_mono_nonneg_r; lia. }
  set (n := m * 2 ^ (e - e0) + 2 * 2 ^ (- e0)) in *.
  assert (Hn : 0 < n) by (unfold n; lia).
  unfold round_ratio. destruct n as [| p | p] eqn:En; try lia.
  rewrite <- En.
  apply round_pos_between; unfold n in *; lia.
Qed.

Lemma F2Q_between m e A B :
  e <= 0 -> A * 2 ^ (- e) <= m <= B * 2 ^ (- e) ->
  Qle (inject_Z A) (F2Q (FFin m e)) /\ Qle (F2Q (FFin m e)) (inject_Z B).
Proof.
  intros He Hm. unfold F2Q.
  assert (Hpe : 0 < 2 ^ (- e)) by (apply Z.pow_pos_nonneg; lia).
  destruct (Z.leb_spec 0 e).
  - assert (e = 0) by lia. subst e. simpl in *.
    rewrite <- !Zle_Qle. lia.
  - unfold Qle, inject_Z. simpl Qnum. simpl Qden.
    rewrite Z2Pos.id by lia. lia.
Qed.

End RoundingBelow.

(** *** The chart of the statistics *)

Lemma annotate_spec bars : forall i,
  map text_x (annotate i bars)
  = map (fun k => i + Z.of_nat k) (seq 0 (length bars)) /\
  map text_s (annotate i bars)
  = map (fun b => format_2f (bar_height b) +++ "%") bars /\
  map text_y (annotate i bars)
  = map (fun b => Float64.fadd (bar_height b) (Float64.of_int 2)) bars.
Proof.
  induction bars as [| b bars IH]; intros i; [repeat split |].
  destruct (IH (i + 1)) as (H1 & H2 & H3).
  cbn [annotate map length seq]. rewrite H1, H2, H3.
  split; [| split; reflexivity]. f_equal; [simpl; lia |].
  rewrite <- seq_shift, map_map. apply map_ext. intros k. lia.
Qed.

(** Property X13.  For the statistics of any unified table the chart is
    drawn and saved at the path given: one bar per course in the order of
    the statistics, of a height between 0 and 100; above the bar number
    [i] a label at abscissa [i] and at a height between 2 and 102, below
    the upper limit 110 of the axis, whose text is the percentage with two
    decimals followed by [%]. *)
Theorem chart_within_axis u stats chart_path fs :
  aggregate u = Ok stats ->
  exists fig,
    generate_chart stats chart_path fs = Ok (savefig chart_path fig fs) /\
    fig_ylim fig = (0, 110) /\
    map bar_course (fig_bars fig) = map courseName stats /\
    map text_x (fig_texts fig) = map Z.of_nat (seq 0 (length stats)) /\
    map text_s (fig_texts fig)
    = map (fun st => format_2f (percentage st) +++ "%") stats /\
    Forall (fun b => (0 <= Float64.F2Q (bar_height b) <= 100)%Q)
           (fig_bars fig) /\
    Forall (fun t => (2 <= Float64.F2Q (text_y t) <= 102)%Q)
           (fig_texts fig).
Proof.
  intros H. unfold generate_chart.
  set (bars := map (fun st => mkBar (courseName st) (percentage st)) stats).
  eexists. split; [reflexivity |]. cbn [fig_ylim fig_bars fig_texts].
  destruct (annotate_spec bars 0) as (Hx & Hs & Hy).
  assert (Hb : forall b, In b bars ->
             exists m e, bar_height b = Float64.FFin m e /\ e <= 0 /\
                         0 <= m <= 100 * 2 ^ (- e)).
  { intros b Hb. apply in_map_iff in Hb as (st & <- & Hst).
    destruct (stat_facts u stats st H Hst) as (_ & _ & _ & _ & Hle & H1 & Hp).
    destruct (percentage_bound (presentCount st) (lectureCount st))
      as (q & m & e & Hq & Hm & He & Hme); [lia | lia |].
    rewrite Hq in Hp. exists m, e. simpl. rewrite Hp. auto. }
  split; [reflexivity |].
  split; [unfold bars; rewrite map_map; reflexivity |].
  split; [rewrite Hx; unfold bars; rewrite length_map; reflexivity |].
  split; [rewrite Hs; unfold bars; rewrite map_map; reflexivity |].
  split.
  - apply Forall_forall. intros b Hin.
    destruct (Hb b Hin) as (m & e & -> & He & Hm).
    apply (F2Q_bound m e 100); assumption.
  - apply Forall_forall. intros t Hin.
    apply (in_map text_y) in Hin. rewrite Hy in Hin.
    apply in_map_iff in Hin as (b & Eb & Hin). rewrite <- Eb.
    destruct (Hb b Hin) as (m & e & -> & He & Hm).
    destruct (label_height m e He Hm) as (m' & e' & -> & He' & Hm').
    apply (F2Q_between m' e' 2 102); assumption.
Qed.

Lemma chart_within_axis_witness :
  aggregate table_three_courses = Ok stats_three_courses /\
  exists fig,
    generate_chart stats_three_courses "/tmp/attendance_chart.png" no_files
    = Ok (savefig "/tmp/attendance_chart.png" fig no_files) /\
    fig_ylim fig = (0, 110) /\
    map bar_course (fig_bars fig) = map courseName stats_three_courses /\
    map text_x (fig_texts fig)
    = map Z.of_nat (seq 0 (length stats_three_courses)) /\
    map text_s (fig_texts fig)
    = map (fun st => format_2f (percentage st) +++ "%")
          stats_three_courses /\
    Forall (fun b => (0 <= Float64.F2Q (bar_height b) <= 100)%Q)
           (fig_bars fig) /\
    Forall (fun t => (2 <= Float64.F2Q (text_y t) <= 102)%Q)
           (fig_texts fig).
Proof.
  assert (H : aggregate table_three_courses = Ok stats_three_courses)
    by reflexivity.
  split; [exact H |].
  exact (chart_within_axis table_three_courses stats_three_courses
           "/tmp/attendance_chart.png" no_files H).
Defined.

(** *** The pipeline on the disk *)

Lemma process_pdf_cases TEMP_DIR pages fs :
  process_pdf TEMP_DIR pages fs
  = match merge (concat pages) with
    | Raise e => (Raise e, fs)
    | Ok unified =>
        match aggregate unified with
        | Raise e => (Raise e, fs)
        | Ok stats =>
            (Ok (format (sums_held unified) stats, chart_file TEMP_DIR),
             savefig (chart_file TEMP_DIR) (figure_of stats) fs)
        end
    end.
Proof.
  unfold process_pdf.
  destruct (merge (concat pages)) as [unified | e]; [| reflexivity].
  cbn [bind]. destruct (aggregate unified) as [stats | e]; reflexivity.
Qed.

Lemma with_charts_charts d p : with_charts d (charts d) p = d p.
Proof.
  unfold with_charts, charts. destruct (d p) as [[doc | fig] |]; reflexivity.
Qed.

Lemma with_charts_savefig d path fig p :
  with_charts d (savefig path fig (charts d)) p
  = if String.eqb p path then Some (Image fig) else d p.
Proof.
  unfold with_charts at 1, savefig.
  destruct (String.eqb p path); [reflexivity |].
  apply with_charts_charts.
Qed.

(** *** Tables without data rows *)

Lemma header_row_alone (h : list cell) :
  header_row [h] = Some h /\ data_rows [h] = [].
Proof.
  unfold header_row, data_rows, frame_rows, pad. simpl.
  rewrite Nat.max_0_r, Nat.sub_diag. simpl. rewrite app_nil_r. auto.
Qed.

Lemma layout_of_distinct_labels (h : list cell) rows :
  NoDup h -> (3 <= length h)%nat -> course_cell h <> None ->
  layout_ok (mkDF h rows).
Proof.
  intros Hnd Hn Hc. apply layout_ok_iff. cbn [columns].
  split; [lia |]. split.
  - destruct (course_cell h) as [c |]; [eauto | contradiction].
  - unfold course_cell, status_cell. intros E.
    apply (proj1 (NoDup_nth h None) Hnd) in E; lia.
Qed.

(** Property X14.  A PDF with at least one table, whose tables all consist
    of one and the same header row (at least three labels without
    repetition, the second one not null) and of no data row, is not
    refused: the report is the empty text and a chart without bars is
    written to the chart path. *)
Theorem header_only_pdf TEMP_DIR (h : list cell)
  (pages : list (list RawTable)) fs :
  NoDup h -> (3 <= length h)%nat -> course_cell h <> None ->
  concat pages <> [] ->
  Forall (fun t : RawTable => t = [h]) (concat pages) ->
  process_pdf TEMP_DIR pages fs
  = (Ok ("", chart_file TEMP_DIR),
     savefig (chart_file TEMP_DIR) empty_chart fs).
Proof.
  intros Hnd Hn Hc Hne Hall.
  assert (Hh : h <> []) by (destruct h; [simpl in Hn; lia | discriminate]).
  assert (Hs : statistics pages = Ok []).
  { unfold statistics. destruct (concat pages) as [| t ts]; [contradiction |].
    assert (Hhead : Forall (fun t' => header_row t' = Some h) (t :: ts)).
    { eapply Forall_impl; [| exact Hall]. intros t' ->.
      apply header_row_alone. }
    unfold merge. rewrite (loop_same_header h t ts Hh Hnd Hhead).
    cbn [bind tables headers].
    rewrite (pd_concat_same_header h t ts Hh Hnd Hhead). cbn [bind].
    unfold set_columns. cbn [columns data]. rewrite Nat.eqb_refl.
    cbn [bind].
    assert (Ed : data_rows t ++
                 flat_map (fun t' => map (blank_first h) (data_rows t')) ts
                 = []).
    { assert (E0 : forall t' : RawTable, t' = [h] -> data_rows t' = [])
        by (intros t' ->; apply header_row_alone).
      inversion Hall as [| ? ? Ht Hts]. rewrite (E0 t Ht). simpl.
      clear - Hts E0. induction ts as [| t' ts IH]; [reflexivity |].
      inversion Hts as [| ? ? Ht' Hts']. simpl.
      rewrite (E0 t' Ht'). simpl. auto. }
    rewrite Ed.
    rewrite (aggregate_layout _ (layout_of_distinct_labels h [] Hnd Hn Hc)).
    reflexivity. }
  rewrite process_pdf_cases. unfold statistics in Hs.
  destruct (merge (concat pages)) as [u | e]; [| discriminate].
  cbn [bind] in Hs. rewrite Hs. reflexivity.
Qed.

Lemma header_only_pdf_witness :
  NoDup short_header /\
  (3 <= length short_header)%nat /\
  course_cell short_header <> None /\
  concat pdf_header_only <> [] /\
  Forall (fun t : RawTable => t = [short_header]) (concat pdf_header_only) /\
  process_pdf "/tmp" pdf_header_only no_files
  = (Ok ("", chart_file "/tmp"),
     savefig (chart_file "/tmp") empty_chart no_files).
Proof.
  assert (H0 : NoDup short_header) by (apply nodupb_NoDup; reflexivity).
  assert (H1 : (3 <= length short_header)%nat) by (simpl; lia).
  assert (H2 : course_cell short_header <> None) by discriminate.
  assert (H3 : concat pdf_header_only <> []) by discriminate.
  assert (H4 : Forall (fun t : RawTable => t = [short_header])
                      (concat pdf_header_only))
    by (repeat constructor).
  split; [exact H0 | split; [exact H1 | split; [exact H2 |
    split; [exact H3 | split; [exact H4 |]]]]].
  exact (header_only_pdf "/tmp" short_header pdf_header_only no_files
           H0 H1 H2 H3 H4).
Defined.

(* ================================================================= *)
(** ** Properties of the document handler *)

(** *** Paths *)

Lemma ends_with_spec suffix s :
  ends_with suffix s = true <-> exists pre, s = pre +++ suffix.
Proof.
  split.
  - induction s as [| c s IH]; cbn [ends_with].
    + destruct suffix; simpl; [| intros H; discriminate H].
      exists "". reflexivity.
    + destruct (String.eqb_spec (String c s) suffix) as [<- | _].
      * exists "". reflexivity.
      * intros H. destruct (IH H) as [pre ->]. exists (String c pre).
        reflexivity.
  - intros [pre ->]. induction pre as [| c pre IH].
    + destruct suffix; cbn [ends_with append]; rewrite String.eqb_refl;
        reflexivity.
    + cbn [ends_with append]. rewrite IH.
      destruct (String.eqb _ suffix); reflexivity.
Qed.

Lemma last_char_app a b : b <> "" -> last_char (a +++ b) = last_char b.
Proof.
  intros Hb. induction a as [| c a IH]; [reflexivity |].
  simpl. destruct (a +++ b) eqn:E; [| exact IH].
  destruct a; simpl in E; [contradiction | discriminate].
Qed.

Lemma path_join_suffix a b : exists pre, path_join a b = pre +++ b.
Proof.
  unfold path_join. destruct (String.prefix "/" b); [exists ""; reflexivity |].
  destruct (String.eqb a "" || ends_with_slash a); [exists a; reflexivity |].
  exists (a +++ "/"). rewrite append_assoc. reflexivity.
Qed.

Lemma append_assoc' (a b c : string) : a +++ b +++ c = (a +++ b) +++ c.
Proof. symmetry. apply append_assoc. Qed.

(** A stored document is never at the path of the chart. *)
Lemma upload_not_chart TEMP_DIR file_name :
  ends_with ".pdf" file_name = true ->
  path_join TEMP_DIR file_name <> chart_file TEMP_DIR.
Proof.
  intros H. apply ends_with_spec in H as [stem ->].
  destruct (path_join_suffix TEMP_DIR (stem +++ ".pdf")) as [pre E].
  intros Heq. apply (f_equal last_char) in Heq.
  rewrite E in Heq. unfold chart_file in Heq.
  destruct (path_join_suffix TEMP_DIR "attendance_chart.png") as [pre' E'].
  rewrite E' in Heq.
  rewrite append_assoc', !last_char_app in Heq by discriminate.
  discriminate.
Qed.

(** Property X15.  The path at which the handler stores a document whose
    name ends in [.pdf]: it ends with that name, hence in [.pdf], and so it
    is never the path of the chart; when the name starts with [/] the path
    is the name itself, whatever the temporary directory. *)
Theorem upload_path TEMP_DIR file_name :
  ends_with ".pdf" file_name = true ->
  ends_with file_name (path_join TEMP_DIR file_name) = true /\
  ends_with ".pdf" (path_join TEMP_DIR file_name) = true /\
  path_join TEMP_DIR file_name <> chart_file TEMP_DIR /\
  (String.prefix "/" file_name = true ->
   path_join TEMP_DIR file_name = file_name).
Proof.
  intros H. pose proof (upload_not_chart TEMP_DIR file_name H) as Hne.
  apply ends_with_spec in H as [stem ->].
  destruct (path_join_suffix TEMP_DIR (stem +++ ".pdf")) as [pre E].
  split; [apply ends_with_spec; eauto |].
  split; [apply ends_with_spec; exists (pre +++ stem);
          rewrite E, append_assoc; reflexivity |].
  split; [exact Hne |].
  intros Hp. unfold path_join. rewrite Hp. reflexivity.
Qed.

Lemma upload_path_witness :
  ends_with ".pdf" "report.pdf" = true /\
  ends_with "report.pdf" (path_join "/tmp" "report.pdf") = true /\
  ends_with ".pdf" (path_join "/tmp" "report.pdf") = true /\
  path_join "/tmp" "report.pdf" <> chart_file "/tmp" /\
  (String.prefix "/" "report.pdf" = true ->
   path_join "/tmp" "report.pdf" = "report.pdf").
Proof.
  assert (H : ends_with ".pdf" "report.pdf" = true) by reflexivity.
  split; [exact H |].
  exact (upload_path "/tmp" "report.pdf" H).
Defined.

(** *** The handler, case by case *)

Ltac world_simpl :=
  cbn [disk outbox writable telegram set_disk fst snd
       raised world_after chart_path_var].

(** *** Line 50 *)

Lemma eqb_false_of_neq a b : a <> b -> String.eqb a b = false.
Proof. intros H. apply String.eqb_neq. assumption. Qed.

(** What line 50 does on a document: it raises, or there are statistics
    and the chart can be created. *)
Lemma failure_of_cases chart_writable d :
  (exists e, failure_of chart_writable d = Some e) \/
  (exists pages unified stats,
     d = PdfDocument pages /\ merge (concat pages) = Ok unified /\
     aggregate unified = Ok stats /\ chart_writable = true).
Proof.
  destruct d as [pages |]; [| left; simpl; eauto].
  unfold failure_of, statistics.
  destruct (merge (concat pages)) as [unified | e] eqn:Em;
    [| left; simpl; eauto].
  cbn [bind]. destruct (aggregate unified) as [stats | e] eqn:Ea;
    [| left; eauto].
  destruct chart_writable; [right | left]; eauto 8.
Qed.

Lemma process_file_raises TEMP_DIR fp d e w :
  disk w fp = Some (Upload d) ->
  failure_of (writable w (chart_file TEMP_DIR)) d = Some e ->
  exists w1,
    process_file TEMP_DIR fp w = (Failed e, w1) /\
    outbox w1 = outbox w /\ telegram w1 = telegram w /\
    forall p, disk w1 p = disk w p.
Proof.
  intros Hd Hf. unfold process_file. rewrite Hd.
  destruct d as [pages |].
  - rewrite process_pdf_cases. unfold failure_of, statistics in Hf.
    destruct (merge (concat pages)) as [unified | e0]; cbn [bind] in Hf.
    + destruct (aggregate unified) as [stats | e0].
      * destruct (writable w (chart_file TEMP_DIR)); [discriminate |].
        inversion Hf; subst. exists w. auto.
      * inversion Hf; subst. eexists. split; [reflexivity |].
        world_simpl.
        repeat split. intros p. apply with_charts_charts.
    + inversion Hf; subst. eexists. split; [reflexivity |].
      world_simpl.
      repeat split. intros p. apply with_charts_charts.
  - simpl in Hf. inversion Hf; subst. exists w. auto.
Qed.

Lemma process_file_returns TEMP_DIR fp pages unified stats w :
  disk w fp = Some (Upload (PdfDocument pages)) ->
  merge (concat pages) = Ok unified -> aggregate unified = Ok stats ->
  writable w (chart_file TEMP_DIR) = true ->
  process_file TEMP_DIR fp w
  = (Done (format (sums_held unified) stats, chart_file TEMP_DIR),
     set_disk (with_charts (disk w)
                 (savefig (chart_file TEMP_DIR) (figure_of stats)
                          (charts (disk w)))) w).
Proof.
  intros Hd Hm Ha Hw. unfold process_file.
  rewrite Hd, process_pdf_cases, Hm, Ha, Hw. reflexivity.
Qed.

(** *** From the [try] block on *)

(** The document being stored and line 50 raising: whether or not the
    error can be sent, the stored document is removed and line 61
    raises. *)
Lemma after_upload_raises TEMP_DIR fp d e w :
  disk w fp = Some (Upload d) ->
  failure_of (writable w (chart_file TEMP_DIR)) d = Some e ->
  let t := try_block TEMP_DIR fp w in
  exists w',
    finally_block fp (chart_path_var t) (fst (except_block t))
                  (snd (except_block t))
    = (Failed UnboundLocalError, w') /\
    outbox w' = outbox w ++ (if telegram w 0 then [AnswerError e] else []) /\
    disk w' fp = None /\
    forall p, p <> fp -> disk w' p = disk w p.
Proof.
  intros Hd Hf t. unfold t, try_block.
  destruct (process_file_raises TEMP_DIR fp d e w Hd Hf)
    as (w1 & -> & Ho & Ht & Hd1).
  unfold except_block. world_simpl.
  unfold send, io_bind, api_call. rewrite Ht.
  destruct (telegram w 0); world_simpl;
    unfold finally_block, io_bind, os_remove;
    world_simpl; rewrite Hd1, Hd;
    (eexists; split; [reflexivity |]); world_simpl;
    rewrite Ho, ?app_nil_r, String.eqb_refl;
    (split; [reflexivity |]); (split; [reflexivity |]);
    intros p Hp; rewrite (eqb_false_of_neq _ _ Hp); apply Hd1.
Qed.

(** The document being stored and line 50 returning: whatever the calls
    of the API do, both files are removed. *)
Lemma after_upload_returns TEMP_DIR fp pages unified stats w :
  fp <> chart_file TEMP_DIR ->
  disk w fp = Some (Upload (PdfDocument pages)) ->
  merge (concat pages) = Ok unified -> aggregate unified = Ok stats ->
  writable w (chart_file TEMP_DIR) = true ->
  let t := try_block TEMP_DIR fp w in
  exists w',
    finally_block fp (chart_path_var t) (fst (except_block t))
                  (snd (except_block t))
    = (answered (telegram w 0) (telegram w 1) (telegram w 2), w') /\
    outbox w'
    = outbox w ++ answers (telegram w 0) (telegram w 1) (telegram w 2)
                          (report_message (sums_held unified) stats)
                          (chart_message stats) /\
    disk w' fp = None /\
    disk w' (chart_file TEMP_DIR) = None /\
    forall p, p <> fp -> p <> chart_file TEMP_DIR -> disk w' p = disk w p.
Proof.
  intros Hne Hd Hm Ha Hw t. unfold t, try_block.
  rewrite (process_file_returns TEMP_DIR fp pages unified stats w
             Hd Hm Ha Hw).
  assert (Hne' : chart_file TEMP_DIR <> fp) by congruence.
  set (cf := chart_file TEMP_DIR) in *.
  set (d1 := with_charts (disk w) (savefig cf (figure_of stats)
                                           (charts (disk w)))).
  assert (E1 : d1 cf = Some (Image (figure_of stats)))
    by (unfold d1; rewrite with_charts_savefig, String.eqb_refl;
        reflexivity).
  assert (E2 : d1 fp = Some (Upload (PdfDocument pages)))
    by (unfold d1; rewrite with_charts_savefig,
          (eqb_false_of_neq _ _ Hne); exact Hd).
  assert (E3 : forall p, p <> cf -> d1 p = disk w p)
    by (intros p Hp; unfold d1;
        rewrite with_charts_savefig, (eqb_false_of_neq _ _ Hp);
        reflexivity).
  clearbody d1.
  unfold send, answer_photo, io_bind, api_call, answers, answered,
    report_message, chart_message.
  world_simpl.
  destruct (telegram w 0) eqn:T0; world_simpl.
  - rewrite E1. unfold send, io_bind, api_call.
    world_simpl.
    destruct (telegram w 1) eqn:T1;
      unfold except_block; world_simpl.
    + world_simpl. unfold finally_block, io_bind, os_remove.
      world_simpl. rewrite E2. world_simpl.
      rewrite (eqb_false_of_neq _ _ Hne'), E1. world_simpl.
      eexists. split; [reflexivity |]. world_simpl.
      rewrite <- app_assoc, !String.eqb_refl, (eqb_false_of_neq _ _ Hne).
      repeat split. intros p Hp Hc.
      rewrite !eqb_false_of_neq by assumption. auto.
    + unfold send, io_bind, api_call.
      world_simpl.
      destruct (telegram w 2) eqn:T2; world_simpl;
        unfold finally_block, io_bind, os_remove;
        world_simpl; rewrite E2; world_simpl;
        rewrite (eqb_false_of_neq _ _ Hne'), E1; world_simpl;
        (eexists; split; [reflexivity |]); world_simpl;
        rewrite <- ?app_assoc, !String.eqb_refl,
          (eqb_false_of_neq _ _ Hne);
        repeat split; intros p Hp Hc;
        rewrite !eqb_false_of_neq by assumption; auto.
  - unfold except_block; world_simpl.
    unfold send, io_bind, api_call.
    world_simpl.
    destruct (telegram w 1) eqn:T1; world_simpl;
      unfold finally_block, io_bind, os_remove;
      world_simpl; rewrite E2; world_simpl;
      rewrite (eqb_false_of_neq _ _ Hne'), E1; world_simpl;
      (eexists; split; [reflexivity |]); world_simpl;
      rewrite ?app_nil_r, !String.eqb_refl, (eqb_false_of_neq _ _ Hne);
      repeat split; intros p Hp Hc;
      rewrite !eqb_false_of_neq by assumption; auto.
Qed.

(** *** The handler *)

Lemma let_pair {A B C} (e : A * B) (f : A -> B -> C) :
  (let (a, b) := e in f a b) = f (fst e) (snd e).
Proof. destruct e; reflexivity. Qed.

(** The handler up to line 47, when the document is fetched and stored. *)
Lemma handle_document_stored TEMP_DIR name downloaded w :
  ends_with ".pdf" name = true ->
  telegram w 0 = true -> telegram w 1 = true ->
  writable w (path_join TEMP_DIR name) = true ->
  exists w3,
    handle_document TEMP_DIR (Some name) downloaded w
    = (let t := try_block TEMP_DIR (path_join TEMP_DIR name) w3 in
       finally_block (path_join TEMP_DIR name) (chart_path_var t)
                     (fst (except_block t)) (snd (except_block t))) /\
    disk w3 (path_join TEMP_DIR name) = Some (Upload downloaded) /\
    (forall p, p <> path_join TEMP_DIR name -> disk w3 p = disk w p) /\
    outbox w3 = outbox w /\ writable w3 = writable w /\
    forall i, telegram w3 i = telegram w (S (S i)).
Proof.
  intros Hpdf T0 T1 Hw. unfold handle_document. rewrite Hpdf. cbn [negb].
  unfold io_bind at 1, api_call at 1. rewrite T0.
  unfold io_bind at 1, api_call at 1. world_simpl. rewrite T1.
  unfold io_bind at 1, write_file. world_simpl. rewrite Hw.
  exists (set_disk (fun p => if String.eqb p (path_join TEMP_DIR name)
                            then Some (Upload downloaded) else disk w p)
                   (mkWorld (disk w) (outbox w) (writable w)
                            (fun n => telegram w (S (S n))))).
  split; [cbv zeta; rewrite let_pair; reflexivity |].
  world_simpl. rewrite String.eqb_refl.
  split; [reflexivity |]. split; [| repeat split].
  intros p Hp. rewrite (eqb_false_of_neq _ _ Hp). reflexivity.
Qed.





Lemma answers_length t0 t1 t2 report photo :
  (length (answers t0 t1 t2 report photo) <= 2)%nat /\
  (answered t0 t1 t2 = Done tt -> answers t0 t1 t2 report photo <> []).
Proof.
  destruct t0, t1, t2; simpl; split; try lia; intros H;
    discriminate.
Qed.


(** A name whose directory is missing: line 46 raises before the [try]
    block is entered, nothing is answered and no file is created. *)
Lemma handle_document_missing_directory :
  let (r, w') :=
    handle_document "/tmp" (Some "missing_dir/report.pdf")
                    (PdfDocument pdf_one_row) missing_directory in
  r = Failed OSError /\ outbox w' = [] /\
  disk w' "/tmp/missing_dir/report.pdf" = None.
Proof. repeat split. Qed.
